(** * gaia-project-scraper: log parsing and statistics aggregation

    A shallow embedding of [gaia-project-scraper.py]: the change parser
    ([StateChange]), the row classifier ([LogItem]), the log builder
    ([GameLog]) and the statistics accumulator ([VPStats], [ResourceStats],
    [FactionStats], [Stats]), followed by the properties the specification
    states about them.

    Conventions.
    - A Python [str] is a [string]; a character is its code point, taken in
      the 8-bit range.  In that range [\d] matches exactly ['0'..'9'] and
      [str.strip] removes the twelve code points Python counts as white
      space.
    - A Python [int] is a [Z].
    - An uncaught exception (and [sys.exit]) ends the run: a computation that
      may raise has type [result A], the error on the left.
    - An attribute that was never assigned, and the value [None], are both
      [None] of an [option]; reading an attribute through them raises
      [AttributeError]. *)

From Stdlib Require Import ZArith Ascii String List Bool Lia SpecFloat.
From Stdlib Require Import DecimalString DecimalN.
From stdpp Require Import base option list gmap strings.

Local Open Scope Z_scope.

(** ** Exceptions and the error monad *)

Inductive value_error :=
  | EmptyStateChangeString   (* 'state_change_string cannot be empty.' *)
  | EmptyRow.                (* 'The row {} is empty.' *)

Inductive exn :=
  | ValueError (why : value_error)
  | SystemExit (code : Z)
  | AttributeError
  | KeyError
  | ZeroDivisionError
  | OverflowError.

(** The names the specification gives to the two fatal parse errors. *)
Definition MalformedToken : exn := SystemExit 1.
Definition MalformedRow : exn := ValueError EmptyRow.

Definition result (A : Type) : Type := (exn + A)%type.

Definition ret {A} (a : A) : result A := inr a.
Definition raise {A} (e : exn) : result A := inl e.
Definition bind {A B} (m : result A) (k : A -> result B) : result B :=
  match m with
  | inl e => inl e
  | inr a => k a
  end.

Global Arguments ret {A} a /.
Global Arguments raise {A} e /.

Notation "'let*' x ':=' m 'in' k" := (bind m (fun x => k))
  (at level 10, x name, m at level 100, k at level 200).

(** [for x in xs: body] over a running state, stopping at the first raise. *)
Fixpoint foldM {A S} (body : S -> A -> result S) (xs : list A) (s : S) : result S :=
  match xs with
  | [] => ret s
  | x :: xs' => let* s' := body s x in foldM body xs' s'
  end.

(** [[f(x) for x in xs]], stopping at the first raise. *)
Fixpoint mapM' {A B} (f : A -> result B) (xs : list A) : result (list B) :=
  match xs with
  | [] => ret []
  | x :: xs' => let* y := f x in let* ys := mapM' f xs' in ret (y :: ys)
  end.

(** ** The Python built-ins the program calls *)

Module Py.

Definition isdigit (c : ascii) : bool :=
  let n := N_of_ascii c in ((48 <=? n) && (n <=? 57))%N.

(** White space in the sense of [str.strip()]. *)
Definition isspace (c : ascii) : bool :=
  let n := N_of_ascii c in
  (((9 <=? n) && (n <=? 13)) || ((28 <=? n) && (n <=? 32))
   || (n =? 133) || (n =? 160))%N.

Fixpoint lstrip (s : string) : string :=
  match s with
  | EmptyString => EmptyString
  | String c s' => if isspace c then lstrip s' else s
  end.

Fixpoint rstrip (s : string) : string :=
  match s with
  | EmptyString => EmptyString
  | String c s' =>
      match rstrip s' with
      | EmptyString => if isspace c then EmptyString else String c EmptyString
      | r => String c r
      end
  end.

(** [s.strip()] *)
Definition strip (s : string) : string := rstrip (lstrip s).

(** [s.startswith(p)] *)
Fixpoint startswith (s p : string) {struct p} : bool :=
  match p with
  | EmptyString => true
  | String a p' =>
      match s with
      | EmptyString => false
      | String b s' => Ascii.eqb a b && startswith s' p'
      end
  end.

(** [s[::-1]] *)
Fixpoint rev (s : string) : string :=
  match s with
  | EmptyString => EmptyString
  | String c s' => rev s' +:+ String c EmptyString
  end.

(** [s.endswith(k)]: read from the right, [s] starts with [k]. *)
Definition endswith (s k : string) : bool := startswith (rev s) (rev k).

(** [sub in s] *)
Fixpoint contains (sub s : string) : bool :=
  startswith s sub ||
  match s with
  | EmptyString => false
  | String _ s' => contains sub s'
  end.

(** [s.replace(c, '')] for a one-character [c]. *)
Fixpoint remove (c : ascii) (s : string) : string :=
  match s with
  | EmptyString => EmptyString
  | String a s' => if Ascii.eqb a c then remove c s' else String a (remove c s')
  end.

(** [s.split(c)] for a one-character separator: empty pieces are kept. *)
Fixpoint split (c : ascii) (s : string) : list string :=
  match s with
  | EmptyString => [EmptyString]
  | String a s' =>
      if Ascii.eqb a c then EmptyString :: split c s'
      else match split c s' with
           | piece :: pieces => String a piece :: pieces
           | [] => [String a EmptyString]
           end
  end.

Definition starts_with_digit (s : string) : bool :=
  match s with
  | String c _ => isdigit c
  | EmptyString => false
  end.

(** [re.findall(r'\d+', s)]: the maximal runs of digits, left to right. *)
Fixpoint findall_digits (s : string) : list string :=
  match s with
  | EmptyString => []
  | String c s' =>
      if isdigit c then
        if starts_with_digit s' then
          match findall_digits s' with
          | run :: runs => String c run :: runs
          | [] => [String c EmptyString]
          end
        else String c EmptyString :: findall_digits s'
      else findall_digits s'
  end.

Definition digit_value (c : ascii) : Z := Z.of_N (N_of_ascii c) - 48.

Fixpoint int_from (acc : Z) (s : string) : Z :=
  match s with
  | EmptyString => acc
  | String c s' => int_from (10 * acc + digit_value c) s'
  end.

(** [int(s)] on a string of digits. *)
Definition int (s : string) : Z := int_from 0 s.

(** [zip(xs, ys)] *)
Fixpoint zip {A B} (xs : list A) (ys : list B) : list (A * B) :=
  match xs, ys with
  | x :: xs', y :: ys' => (x, y) :: zip xs' ys'
  | _, _ => []
  end.

End Py.

(** ** Vocabulary *)

Definition _FACTIONS : list string :=
  ["ambas"; "baltaks"; "bescods"; "firaks"; "geodens"; "gleens"; "hadsch-hallas";
   "itars"; "ivits"; "lantids"; "nevlas"; "taklons"; "terrans"; "xenos"]%string.

Definition _TECH_TRACKS : list string :=
  ["terra"; "nav"; "int"; "gaia"; "eco"; "sci"]%string.

Inductive Res := COIN | ORE | KNOWLEDGE | QIC | POWER | PT | VP.

Inductive ChangeType := GAIN | LOSS.

Global Instance Res_eq_dec : EqDecision Res.
Proof. solve_decision. Defined.
Global Instance ChangeType_eq_dec : EqDecision ChangeType.
Proof. solve_decision. Defined.

(** ** The change parser *)

Module StateChange.

(** The attributes of a [StateChange] object.  [resource] is [None] when
    the constructor never assigned it. *)
Record t := mk {
  type : ChangeType;
  resource : option Res;
  quantity : Z
}.

(** The dictionary literal, in its iteration (insertion) order. *)
Definition _RESOURCE_MAP : list (string * Res) :=
  [("c", COIN); ("o", ORE); ("k", KNOWLEDGE); ("q", QIC);
   ("pw", POWER); ("t", PT); ("vp", VP)]%string.

(** The [for ... in _RESOURCE_MAP.items()] loop with its [break]. *)
Fixpoint resource_loop (state_change_string : string)
    (items : list (string * Res)) : option Res :=
  match items with
  | [] => None
  | (res_string, res_type) :: rest =>
      if Py.endswith state_change_string res_string then Some res_type
      else resource_loop state_change_string rest
  end.

Definition __init__ (state_change_string : string) : result t :=
  match state_change_string with
  | EmptyString => raise (ValueError EmptyStateChangeString)
  | String c0 _ =>
      let type := if Ascii.eqb c0 "-" then LOSS else GAIN in
      let resource := resource_loop state_change_string _RESOURCE_MAP in
      match Py.findall_digits state_change_string with
      | [] => raise (SystemExit 1)
      | run :: _ => ret (mk type resource (Py.int run))
      end
  end.

End StateChange.

(** ** The row classifier *)

(** What the program reads of an HTML element: its [.string] ([None] when
    the element does not hold exactly one piece of text) and the [.string]
    of every [div] below it, in document order. *)
Record Tag := mkTag {
  string_ : option string;
  find_all_div : list (option string)
}.

(** A [tr] element, as the list [row.find_all('td')]. *)
Definition Row := list Tag.

(** An event is the pair [(action, change_list)]; an entry of the change
    list is [None] for an empty token. *)
Definition Event : Type := string * list (option StateChange.t).

(** [x.strip()] on a value that may be [None]. *)
Definition strip_attr (x : option string) : result string :=
  match x with
  | None => raise AttributeError
  | Some s => ret (Py.strip s)
  end.

Module LogItem.

Record t := mk {
  text : string;
  faction : option string;
  events : option (list Event)
}.

Fixpoint first_in (names : list string) (text : string) : option string :=
  match names with
  | [] => None
  | faction :: rest =>
      if Py.contains faction text then Some faction else first_in rest text
  end.

Definition _get_faction (text : string) : option string :=
  first_in _FACTIONS text.

(** The body of the inner loop over [state_change_list]. *)
Definition parse_change (change : string) : result (option StateChange.t) :=
  match Py.strip change with
  | EmptyString => ret None
  | _ => let* sc := StateChange.__init__ (Py.strip change) in ret (Some sc)
  end.

(** The body of the loop over [zip(actions, state_changes)]. *)
Definition compute_event (pair : option string * option string) : result Event :=
  let* action := strip_attr pair.1 in
  let* stripped := strip_attr pair.2 in
  let state_change_list := Py.split " " (Py.remove "," stripped) in
  let* change_list := mapM' parse_change state_change_list in
  ret (action, change_list).

Definition _compute_events (actions_html state_change_html : Tag)
    : result (list Event) :=
  let actions := find_all_div actions_html in
  let state_changes := find_all_div state_change_html in
  mapM' compute_event (Py.zip actions state_changes).

Definition parse_from_HTML (row : Row) : result t :=
  match row with
  | [] => raise (ValueError EmptyRow)
  | col0 :: _ =>
      let* text := strip_attr (string_ col0) in
      let faction := _get_faction text in
      match row with
      | [_; col1; col2] =>
          let* events := _compute_events col1 col2 in
          ret (mk text faction (Some events))
      | _ => ret (mk text faction None)
      end
  end.

End LogItem.

(** ** The log builder *)

Module GameLog.

Record t := mk {
  factions : gset string;
  items : list LogItem.t
}.

(** The loop that collects the factions of the items. *)
Definition add_faction (factions : gset string) (item : LogItem.t) : gset string :=
  match LogItem.faction item with
  | Some (String _ _ as faction) =>
      let stripped_faction := Py.strip faction in
      if decide (stripped_faction ∈ factions) then factions
      else {[stripped_faction]} ∪ factions
  | _ => factions
  end.

(** [html] is given as the list [html.find_all('tr', ...)]. *)
Definition parse_from_HTML (log_rows : list Row) : result t :=
  let log_rows := rev log_rows in
  let* items := mapM' LogItem.parse_from_HTML log_rows in
  let factions := fold_left add_faction items ∅ in
  ret (mk factions items).

End GameLog.

(** ** The statistics accumulator *)

(** [change.resource], which raises when the attribute was never set. *)
Definition get_resource (change : StateChange.t) : result Res :=
  match StateChange.resource change with
  | None => raise AttributeError
  | Some r => ret r
  end.

Module VPStats.

Record t := mk {
  vp : Z;
  vp_lost_from_leech : Z;
  vp_from_round_scoring : Z;
  vp_from_boosters : Z;
  vp_from_endgame : Z;
  vp_from_techs : Z;
  vp_from_adv_techs : Z;
  vp_from_feds : Z;
  vp_from_qic_act : Z;
  vp_from_tracks : Z;
  vp_from_resources : Z
}.

Definition __init__ : t := mk 10 0 0 0 0 0 0 0 0 0 0.

Definition set_vp (f : Z -> Z) (s : t) : t :=
  let (a0, a1, a2, a3, a4, a5, a6, a7, a8, a9, a10) := s in
  mk (f a0) a1 a2 a3 a4 a5 a6 a7 a8 a9 a10.
Definition set_vp_lost_from_leech (f : Z -> Z) (s : t) : t :=
  let (a0, a1, a2, a3, a4, a5, a6, a7, a8, a9, a10) := s in
  mk a0 (f a1) a2 a3 a4 a5 a6 a7 a8 a9 a10.
Definition set_vp_from_round_scoring (f : Z -> Z) (s : t) : t :=
  let (a0, a1, a2, a3, a4, a5, a6, a7, a8, a9, a10) := s in
  mk a0 a1 (f a2) a3 a4 a5 a6 a7 a8 a9 a10.
Definition set_vp_from_boosters (f : Z -> Z) (s : t) : t :=
  let (a0, a1, a2, a3, a4, a5, a6, a7, a8, a9, a10) := s in
  mk a0 a1 a2 (f a3) a4 a5 a6 a7 a8 a9 a10.
Definition set_vp_from_endgame (f : Z -> Z) (s : t) : t :=
  let (a0, a1, a2, a3, a4, a5, a6, a7, a8, a9, a10) := s in
  mk a0 a1 a2 a3 (f a4) a5 a6 a7 a8 a9 a10.
Definition set_vp_from_techs (f : Z -> Z) (s : t) : t :=
  let (a0, a1, a2, a3, a4, a5, a6, a7, a8, a9, a10) := s in
  mk a0 a1 a2 a3 a4 (f a5) a6 a7 a8 a9 a10.
Definition set_vp_from_adv_techs (f : Z -> Z) (s : t) : t :=
  let (a0, a1, a2, a3, a4, a5, a6, a7, a8, a9, a10) := s in
  mk a0 a1 a2 a3 a4 a5 (f a6) a7 a8 a9 a10.
Definition set_vp_from_feds (f : Z -> Z) (s : t) : t :=
  let (a0, a1, a2, a3, a4, a5, a6, a7, a8, a9, a10) := s in
  mk a0 a1 a2 a3 a4 a5 a6 (f a7) a8 a9 a10.
Definition set_vp_from_qic_act (f : Z -> Z) (s : t) : t :=
  let (a0, a1, a2, a3, a4, a5, a6, a7, a8, a9, a10) := s in
  mk a0 a1 a2 a3 a4 a5 a6 a7 (f a8) a9 a10.
Definition set_vp_from_tracks (f : Z -> Z) (s : t) : t :=
  let (a0, a1, a2, a3, a4, a5, a6, a7, a8, a9, a10) := s in
  mk a0 a1 a2 a3 a4 a5 a6 a7 a8 (f a9) a10.
Definition set_vp_from_resources (f : Z -> Z) (s : t) : t :=
  let (a0, a1, a2, a3, a4, a5, a6, a7, a8, a9, a10) := s in
  mk a0 a1 a2 a3 a4 a5 a6 a7 a8 a9 (f a10).

(** [x in xs] for a list of strings. *)
Definition in_list (x : string) (xs : list string) : bool :=
  existsb (String.eqb x) xs.

(** The [if]/[elif] chain that picks the counter to change. *)
Definition classify (action : string) (quantity : Z) (self : t) : t :=
  if Py.contains "round" action then
    set_vp_from_round_scoring (fun x => x + quantity) self
  else if Py.contains "booster" action then
    set_vp_from_boosters (fun x => x + quantity) self
  else if Py.contains "final" action then
    set_vp_from_endgame (fun x => x + quantity) self
  else if Py.contains "tech" action then
    set_vp_from_techs (fun x => x + quantity) self
  else if Py.contains "adv" action then
    set_vp_from_adv_techs (fun x => x + quantity) self
  else if String.eqb "federation" action then
    set_vp_from_feds (fun x => x + quantity) self
  else if Py.contains "qic" action then
    set_vp_from_qic_act (fun x => x + quantity) self
  else if in_list action _TECH_TRACKS then
    set_vp_from_tracks (fun x => x + quantity) self
  else if String.eqb "spend" action then
    set_vp_from_resources (fun x => x + quantity) self
  else if String.eqb "charge" action then
    set_vp_lost_from_leech (fun x => x - quantity) self
  else self.

Definition update_vp (action : string) (change : StateChange.t) (self : t)
    : result t :=
  let* resource := get_resource change in
  if negb (bool_decide (resource = VP)) then ret self
  else
    let quantity := StateChange.quantity change in
    let self := classify action quantity self in
    match StateChange.type change with
    | GAIN => ret (set_vp (fun x => x + quantity) self)
    | LOSS => ret (set_vp (fun x => x - quantity) self)
    end.

End VPStats.

Module ResourceStats.

Record t := mk {
  leech : Z;
  power : Z;
  coins : Z;
  ore : Z;
  knowledge : Z;
  qic : Z;
  pt : Z
}.

Definition __init__ : t := mk 0 0 0 0 0 0 0.

(** A lookup in the dictionary raises [KeyError] on a missing key. *)
Definition _RESOURCE_TO_FIELD_MAP (r : Res) : result string :=
  match r with
  | POWER => ret "power"
  | COIN => ret "coins"
  | ORE => ret "ore"
  | KNOWLEDGE => ret "knowledge"
  | QIC => ret "qic"
  | PT => ret "pt"
  | VP => raise KeyError
  end%string.

Definition getattr (self : t) (field : string) : result Z :=
  if String.eqb field "leech" then ret (leech self)
  else if String.eqb field "power" then ret (power self)
  else if String.eqb field "coins" then ret (coins self)
  else if String.eqb field "ore" then ret (ore self)
  else if String.eqb field "knowledge" then ret (knowledge self)
  else if String.eqb field "qic" then ret (qic self)
  else if String.eqb field "pt" then ret (pt self)
  else raise AttributeError.

(** [setattr] on one of the seven attributes; the program passes no other
    name. *)
Definition setattr (self : t) (field : string) (v : Z) : t :=
  let (a0, a1, a2, a3, a4, a5, a6) := self in
  if String.eqb field "leech" then mk v a1 a2 a3 a4 a5 a6
  else if String.eqb field "power" then mk a0 v a2 a3 a4 a5 a6
  else if String.eqb field "coins" then mk a0 a1 v a3 a4 a5 a6
  else if String.eqb field "ore" then mk a0 a1 a2 v a4 a5 a6
  else if String.eqb field "knowledge" then mk a0 a1 a2 a3 v a5 a6
  else if String.eqb field "qic" then mk a0 a1 a2 a3 a4 v a6
  else if String.eqb field "pt" then mk a0 a1 a2 a3 a4 a5 v
  else self.

Definition update_resources (action : string) (change : StateChange.t)
    (self : t) : result t :=
  match StateChange.type change with
  | LOSS => ret self
  | GAIN =>
      let quantity := StateChange.quantity change in
      let self :=
        if String.eqb "charge" action
        then setattr self "leech" (leech self + quantity)
        else self in
      let* resource := get_resource change in
      let* field := _RESOURCE_TO_FIELD_MAP resource in
      let* current_value := getattr self field in
      ret (setattr self field (current_value + quantity))
  end.

End ResourceStats.

Module FactionStats.

(** The two base classes side by side. *)
Record t := mk {
  faction : string;
  vp_stats : VPStats.t;
  resource_stats : ResourceStats.t
}.

Definition __init__ (faction : string) : t :=
  mk faction VPStats.__init__ ResourceStats.__init__.

(** The body of the loop over [changes]; [change] is [None] for an empty
    token, and [None.resource] raises. *)
Definition augment_change (action : string) (self : t)
    (change : option StateChange.t) : result t :=
  match change with
  | None => raise AttributeError
  | Some change =>
      let* resource := get_resource change in
      if bool_decide (resource = VP) then
        let* v := VPStats.update_vp action change (vp_stats self) in
        ret (mk (faction self) v (resource_stats self))
      else
        let* r := ResourceStats.update_resources action change (resource_stats self) in
        ret (mk (faction self) (vp_stats self) r)
  end.

Definition augment (event : Event) (self : t) : result t :=
  let action := event.1 in
  let changes := event.2 in
  foldM (augment_change action) changes self.

End FactionStats.

Module Stats.

Record t := mk {
  log : GameLog.t;
  faction_stats : gmap string FactionStats.t
}.

(** [self.faction_stats[faction].augment(event)] *)
Definition augment_faction (faction : string)
    (faction_stats : gmap string FactionStats.t) (event : Event)
    : result (gmap string FactionStats.t) :=
  match faction_stats !! faction with
  | None => raise KeyError
  | Some stats =>
      let* stats' := FactionStats.augment event stats in
      ret (<[faction := stats']> faction_stats)
  end.

(** The body of the loop over [log.items]. *)
Definition augment_item (faction_stats : gmap string FactionStats.t)
    (item : LogItem.t) : result (gmap string FactionStats.t) :=
  match LogItem.faction item, LogItem.events item with
  | Some (String _ _ as faction), Some ((_ :: _) as events) =>
      foldM (augment_faction faction) events faction_stats
  | _, _ => ret faction_stats
  end.

Definition __init__ (log : GameLog.t) : result t :=
  let faction_stats : gmap string FactionStats.t :=
    set_to_map (fun faction => (faction, FactionStats.__init__ faction))
               (GameLog.factions log) in
  let* faction_stats := foldM augment_item (GameLog.items log) faction_stats in
  ret (mk log faction_stats).

End Stats.

(** ** The report *)

(** Python floats are IEEE 754 binary64 numbers. *)
Module Float.

Definition prec : Z := 53.
Definition emax : Z := 1024.

(** An integer as a float operand, exactly. *)
Definition of_int (a : Z) : spec_float :=
  match a with
  | Z0 => S754_zero false
  | Zpos p => S754_finite false p 0
  | Zneg p => S754_finite true p 0
  end.

(** [a / b] on two [int]s: the quotient rounded to the nearest float;
    a zero divisor and a quotient beyond the float range raise. *)
Definition truediv (a b : Z) : result spec_float :=
  if b =? 0 then raise ZeroDivisionError
  else
    match SFdiv prec emax (of_int a) (of_int b) with
    | S754_infinity _ => raise OverflowError
    | q => ret q
    end.

(** [x * n] for a float [x] and an [int] [n]. *)
Definition mul_int (x : spec_float) (n : Z) : spec_float :=
  SFmul prec emax x (of_int n).

End Float.

Module Report.

(** The ten category counters, in the column order of both tables. *)
Definition categories (stats : FactionStats.t) : list Z :=
  let v := FactionStats.vp_stats stats in
  [VPStats.vp_from_round_scoring v; VPStats.vp_from_boosters v;
   VPStats.vp_from_endgame v; VPStats.vp_from_techs v;
   VPStats.vp_from_adv_techs v; VPStats.vp_from_feds v;
   VPStats.vp_from_qic_act v; VPStats.vp_from_tracks v;
   VPStats.vp_from_resources v; VPStats.vp_lost_from_leech v].

(** A row of the first table of [breakdown_vp]. *)
Definition absolute_row (entry : string * FactionStats.t)
    : string * list Z :=
  let (faction, stats) := entry in
  (faction, VPStats.vp (FactionStats.vp_stats stats) :: categories stats).

(** One cell of the second table: [counter/stats.vp*100]. *)
Definition percentage (counter vp : Z) : result spec_float :=
  let* q := Float.truediv counter vp in
  ret (Float.mul_int q 100).

(** A row of the second table; its cells are evaluated left to right. *)
Definition percentage_row (entry : string * FactionStats.t)
    : result (string * list spec_float) :=
  let (faction, stats) := entry in
  let vp := VPStats.vp (FactionStats.vp_stats stats) in
  let* cells := mapM' (fun counter => percentage counter vp) (categories stats) in
  ret (faction, cells).

(** The rows handed to [tabulate] for the percentage view, for the
    dictionary's [items()] in the order the loop meets them. *)
Definition percentage_rows (items : list (string * FactionStats.t))
    : result (list (string * list spec_float)) :=
  mapM' percentage_row items.

(** A row of [breakdown_resources]. *)
Definition resources_row (entry : string * FactionStats.t)
    : string * list Z :=
  let (faction, stats) := entry in
  let r := FactionStats.resource_stats stats in
  (faction,
   [ResourceStats.power r; ResourceStats.leech r; ResourceStats.coins r;
    ResourceStats.ore r; ResourceStats.knowledge r; ResourceStats.qic r;
    ResourceStats.pt r]).

Record t := mk {
  vp_table : list (string * list Z);
  vp_percentages : list (string * list spec_float);
  resources_table : list (string * list Z)
}.

(** [Stats.breakdown]: the three tables.  The absolute table is printed
    before the percentages are computed; the value below is the complete
    report, which exists only when no cell raised. *)
Definition breakdown (items : list (string * FactionStats.t)) : result t :=
  let vp_table := map absolute_row items in
  let* vp_percentages := percentage_rows items in
  ret (mk vp_table vp_percentages (map resources_row items)).

End Report.

(** ** The whole run *)

(** [main] once the page is fetched: build the log, accumulate, report.
    The dictionary is listed in the order of [map_to_list]. *)
Definition main (log_rows : list Row) : result (Stats.t * Report.t) :=
  let* log := GameLog.parse_from_HTML log_rows in
  let* stats := Stats.__init__ log in
  let* report := Report.breakdown (map_to_list (Stats.faction_stats stats)) in
  ret (stats, report).

(** ** Scenarios *)

Definition text_cell (s : string) : Tag := mkTag (Some s) [].
Definition div_cell (divs : list string) : Tag := mkTag None (map Some divs).

Definition row3 (text : string) (actions changes : list string) : Row :=
  [text_cell text; div_cell actions; div_cell changes].

Definition stats_of (log_rows : list Row) : result Stats.t :=
  let* log := GameLog.parse_from_HTML log_rows in Stats.__init__ log.

Definition vp_view (faction : string) (log_rows : list Row)
    : result (option (Z * Z * Z * Z)) :=
  let* st := stats_of log_rows in
  ret ((fun s => let v := FactionStats.vp_stats s in
          (VPStats.vp v, VPStats.vp_from_feds v,
           VPStats.vp_lost_from_leech v, VPStats.vp_from_round_scoring v))
       <$> Stats.faction_stats st !! faction).

(** ** Vocabulary of the statements *)

Fixpoint all_chars (p : ascii -> bool) (s : string) : bool :=
  match s with
  | EmptyString => true
  | String c s' => p c && all_chars p s'
  end.

(** A non-empty string of decimal digits. *)
Definition digit_run (run : string) : Prop :=
  run <> EmptyString /\ all_chars Py.isdigit run = true.

Definition no_digit (s : string) : Prop :=
  all_chars (fun c => negb (Py.isdigit c)) s = true.


(** [run] is the first maximal run of digits of the token: no digit comes
    before it and no digit follows it immediately. *)
Definition first_maximal_run (token run : string) : Prop :=
  exists pre post,
    token = pre +:+ run +:+ post /\ no_digit pre /\ digit_run run /\
    Py.starts_with_digit post = false.

(** [k] is a suffix of [s]. *)
Definition is_suffix (k s : string) : Prop := exists pre, s = pre +:+ k.



(** The counter that holds the gains of a resource kind. *)
Definition counter (r : Res) (s : ResourceStats.t) : Z :=
  match r with
  | POWER => ResourceStats.power s
  | COIN => ResourceStats.coins s
  | ORE => ResourceStats.ore s
  | KNOWLEDGE => ResourceStats.knowledge s
  | QIC => ResourceStats.qic s
  | PT => ResourceStats.pt s
  | VP => 0
  end.

(** The nine victory-point buckets other than the leech bucket. *)
Definition gain_buckets (v : VPStats.t) : list Z :=
  [VPStats.vp_from_round_scoring v; VPStats.vp_from_boosters v;
   VPStats.vp_from_endgame v; VPStats.vp_from_techs v;
   VPStats.vp_from_adv_techs v; VPStats.vp_from_feds v;
   VPStats.vp_from_qic_act v; VPStats.vp_from_tracks v;
   VPStats.vp_from_resources v].

(** The quantity of a delta when it is a VictoryPoint delta of the given
    direction, and 0 otherwise. *)
Definition vp_quantity (direction : ChangeType) (change : option StateChange.t) : Z :=
  match change with
  | Some c =>
      if bool_decide (StateChange.resource c = Some VP /\ StateChange.type c = direction)
      then StateChange.quantity c else 0
  | None => 0
  end.

Definition vp_sum_changes (direction : ChangeType)
    (changes : list (option StateChange.t)) : Z :=
  fold_right Z.add 0 (map (vp_quantity direction) changes).

(** The sum of the quantities of the VictoryPoint deltas of a direction over
    a sequence of events. *)
Definition vp_sum (direction : ChangeType) (events : list Event) : Z :=
  vp_sum_changes direction (flat_map snd events).

(** Gains minus losses. *)
Definition net_vp (events : list Event) : Z :=
  vp_sum GAIN events - vp_sum LOSS events.

(** The events an entry of the log records for a participant. *)
Definition item_events (faction : string) (item : LogItem.t) : list Event :=
  match LogItem.faction item, LogItem.events item with
  | Some f, Some events => if bool_decide (f = faction) then events else []
  | _, _ => []
  end.

(** All the events of a participant, in the order of the log. *)
Definition participant_events (faction : string) (log : GameLog.t) : list Event :=
  flat_map (item_events faction) (GameLog.items log).

(** Every delta of every event the log attributes to a participant is
    present with its resource resolved, and the participant is one of the
    log's participants. *)
Definition well_formed_log (log : GameLog.t) : Prop :=
  forall item f events,
    In item (GameLog.items log) ->
    LogItem.faction item = Some f -> f <> EmptyString ->
    LogItem.events item = Some events ->
    f ∈ GameLog.factions log /\
    forall event change, In event events -> In change event.2 ->
      exists c r, change = Some c /\ StateChange.resource c = Some r.

(** The total victory points the accumulator holds for a participant. *)
Definition total_vp (faction_stats : gmap string FactionStats.t) (faction : string)
    : option Z :=
  (fun s => VPStats.vp (FactionStats.vp_stats s)) <$> faction_stats !! faction.

(** The counter divided by the total, multiplied by 100, in float
    arithmetic: the quotient of the two integers rounded to the nearest
    float, then the float product with 100. *)
Definition quotient_times_100 (counter vp : Z) : spec_float :=
  Float.mul_int
    (SFdiv Float.prec Float.emax (Float.of_int counter) (Float.of_int vp)) 100.

(** ** Vocabulary of the further statements *)

(** [sub] occurs in [s] as a substring. *)
Definition occurs (sub s : string) : Prop :=
  exists pre post, s = pre +:+ sub +:+ post.

(** [name] is the first of [names], in their order, that occurs in [text]. *)
Definition first_occurring (names : list string) (text name : string) : Prop :=
  exists i : nat,
    names !! i = Some name /\ occurs name text /\
    forall (j : nat) other, (j < i)%nat -> names !! j = Some other ->
      ~ occurs other text.

(** The number of occurrences of a character in a string. *)
Fixpoint count_char (c : ascii) (s : string) : nat :=
  match s with
  | EmptyString => 0%nat
  | String a s' => ((if Ascii.eqb a c then 1 else 0) + count_char c s')%nat
  end.

(** A delta the accumulator can read: present, with its resource set. *)
Definition resolved (change : option StateChange.t) : Prop :=
  exists c r, change = Some c /\ StateChange.resource c = Some r.

(** [augment] over a sequence of events, in order, on one participant's
    statistics. *)
Definition augment_all (events : list Event) (self : FactionStats.t)
    : result FactionStats.t :=
  foldM (fun s event => FactionStats.augment event s) events self.

(** The resources a participant gained, all six kinds together. *)
Definition gained (r : ResourceStats.t) : Z :=
  ResourceStats.power r + ResourceStats.coins r + ResourceStats.ore r
  + ResourceStats.knowledge r + ResourceStats.qic r + ResourceStats.pt r.

(** No counter of resource gains is negative, and the leech-resource counter
    lies between 0 and the resources gained. *)
Definition resource_counters_in_range (r : ResourceStats.t) : Prop :=
  0 <= ResourceStats.power r /\ 0 <= ResourceStats.coins r /\
  0 <= ResourceStats.ore r /\ 0 <= ResourceStats.knowledge r /\
  0 <= ResourceStats.qic r /\ 0 <= ResourceStats.pt r /\
  0 <= ResourceStats.leech r <= gained r.

(** The nine gain buckets are not negative and the leech bucket is not
    positive. *)
Definition buckets_in_range (v : VPStats.t) : Prop :=
  Forall (fun x => 0 <= x) (gain_buckets v) /\ VPStats.vp_lost_from_leech v <= 0.

(** The deltas of the events carry no negative quantity. *)
Definition nonneg_quantities (events : list Event) : Prop :=
  forall event c, In event events -> In (Some c) event.2 ->
    0 <= StateChange.quantity c.

(** The action label selects one of the ten buckets of [update_vp]. *)
Definition classified (action : string) : bool :=
  Py.contains "round" action || Py.contains "booster" action
  || Py.contains "final" action || Py.contains "tech" action
  || Py.contains "adv" action || String.eqb "federation" action
  || Py.contains "qic" action || VPStats.in_list action _TECH_TRACKS
  || String.eqb "spend" action || String.eqb "charge" action.

(** The sum of the nine gain buckets. *)
Definition bucket_sum (v : VPStats.t) : Z := fold_right Z.add 0 (gain_buckets v).

(** Every VictoryPoint delta of the events is a Gain under a label that
    selects a bucket. *)
Definition gains_all_booked (events : list Event) : Prop :=
  forall event c, In event events -> In (Some c) event.2 ->
    StateChange.resource c = Some VP ->
    StateChange.type c = GAIN /\ classified event.1 = true.

(** The same delta, booked as a gain. *)
Definition as_gain (change : option StateChange.t) : option StateChange.t :=
  option_map (fun c => StateChange.mk GAIN (StateChange.resource c)
                         (StateChange.quantity c)) change.

(** The same events with every delta turned into a gain. *)
Definition forget_direction (events : list Event) : list Event :=
  map (fun event : Event => (event.1, map as_gain event.2)) events.

(** The quantity of a delta when it is a Gain of the given resource kind,
    and 0 otherwise. *)
Definition gain_quantity (r : Res) (change : option StateChange.t) : Z :=
  match change with
  | Some c =>
      if bool_decide (StateChange.type c = GAIN /\ StateChange.resource c = Some r)
      then StateChange.quantity c else 0
  | None => 0
  end.

(** The quantities of the Gain deltas of a resource kind over a sequence
    of events. *)
Definition resource_sum (r : Res) (events : list Event) : Z :=
  fold_right Z.add 0 (map (gain_quantity r) (flat_map snd events)).

(** The events whose action label is "charge". *)
Definition charge_events (events : list Event) : list Event :=
  filter (fun event : Event => event.1 = "charge"%string) events.

(** The quantities of the Gain deltas of the six resource kinds over the
    "charge" events. *)
Definition leech_sum (events : list Event) : Z :=
  let charged := charge_events events in
  resource_sum POWER charged + resource_sum COIN charged + resource_sum ORE charged
  + resource_sum KNOWLEDGE charged + resource_sum QIC charged + resource_sum PT charged.

(** The tests of the [if]/[elif] chain of [update_vp] on an action label,
    in the order of the chain. *)
Definition branch_tests (action : string) : list bool :=
  [Py.contains "round" action; Py.contains "booster" action;
   Py.contains "final" action; Py.contains "tech" action;
   Py.contains "adv" action; String.eqb "federation" action;
   Py.contains "qic" action; VPStats.in_list action _TECH_TRACKS;
   String.eqb "spend" action; String.eqb "charge" action].

(** The label takes the k-th branch of the chain: no test before the k-th
    holds, and the k-th does. *)
Definition takes_branch (k : nat) (action : string) : bool :=
  forallb negb (take k (branch_tests action)) && nth k (branch_tests action) false.

(** The quantity of a VictoryPoint delta, whatever its direction, and 0 for
    any other delta. *)
Definition vp_amount (change : option StateChange.t) : Z :=
  vp_quantity GAIN change + vp_quantity LOSS change.

(** The quantities of the VictoryPoint deltas of the events whose label
    takes the k-th branch. *)
Definition booked (k : nat) (events : list Event) : Z :=
  fold_right Z.add 0
    (map (fun event : Event =>
            if takes_branch k event.1
            then fold_right Z.add 0 (map vp_amount event.2) else 0)
         events).

(** An entry the pass reads without an error, given the keys of the
    statistics: when the entry has a non-empty faction and a non-empty list
    of events, the faction is one of the keys and every delta of the events
    is resolved. *)
Definition readable (keys : gset string) (item : LogItem.t) : Prop :=
  forall f events,
    LogItem.faction item = Some f -> f <> EmptyString ->
    LogItem.events item = Some events -> events <> [] ->
    f ∈ keys /\
    forall event change, In event events -> In change event.2 -> resolved change.

(** * Properties *)

(** ** Sanity checks on concrete inputs *)

Example strip_ex : Py.strip "  4vp, " = "4vp,"%string.
Proof. reflexivity. Qed.

Example split_ex : Py.split " " "+4c  -2k" = ["+4c"; ""; "-2k"]%string.
Proof. reflexivity. Qed.

Example findall_ex : Py.findall_digits "a12b345c6" = ["12"; "345"; "6"]%string.
Proof. reflexivity. Qed.

Example int_ex : Py.int "0123" = 123.
Proof. reflexivity. Qed.

Example endswith_ex : Py.endswith "-12vp" "vp" = true /\ Py.endswith "p" "vp" = false.
Proof. split; reflexivity. Qed.

Example contains_ex : Py.contains "tech" "adv-tech" = true /\ Py.contains "adv" "tech" = false.
Proof. split; reflexivity. Qed.

Example parse_loss_k : StateChange.__init__ "-12k" = inr (StateChange.mk LOSS (Some KNOWLEDGE) 12).
Proof. reflexivity. Qed.

Example parse_gain_vp : StateChange.__init__ "4vp" = inr (StateChange.mk GAIN (Some VP) 4).
Proof. reflexivity. Qed.

Example parse_no_suffix : StateChange.__init__ "3" = inr (StateChange.mk GAIN None 3).
Proof. reflexivity. Qed.

Example parse_abc : StateChange.__init__ "abc" = inl MalformedToken.
Proof. reflexivity. Qed.

Example truediv_4_14 :
  Float.truediv 4 14 = inr (S754_finite false 5146971002709138 (-54)).
Proof. vm_compute. reflexivity. Qed.

Example scenario_federation :
  vp_view "terrans" [row3 "terrans builds" ["federation"] ["4vp"]]%string
  = inr (Some (14, 4, 0, 0)).
Proof. vm_compute. reflexivity. Qed.

Example scenario_charge_round :
  vp_view "terrans" [row3 "terrans scores round" ["round"] ["2vp"];
                     row3 "terrans charges" ["charge"] ["3vp"]]%string
  = inr (Some (15, 0, -3, 2)).
Proof. vm_compute. reflexivity. Qed.

(** ** Loops that may raise *)

Section Loops.

Context {A B : Type} (f : A -> result B).

Lemma mapM'_inr xs ys :
  mapM' f xs = inr ys <-> Forall2 (fun x y => f x = inr y) xs ys.
Proof.
  revert ys. induction xs as [|x xs IH]; intros ys; simpl.
  - split.
    + intros [= <-]. constructor.
    + intros H. inversion H. reflexivity.
  - destruct (f x) as [e|y] eqn:Hx; simpl.
    + split; [discriminate|]. intros H. inversion H; subst. congruence.
    + destruct (mapM' f xs) as [e|ys'] eqn:Hxs; simpl.
      * split; [discriminate|]. intros H. inversion H as [|? y' ? ys'' Hy Hys]; subst.
        apply IH in Hys. discriminate.
      * split.
        -- intros [= <-]. constructor; [exact Hx | apply IH; reflexivity].
        -- intros H. inversion H as [|? y' ? ys'' Hy Hys]; subst.
           apply IH in Hys. unfold ret. congruence.
Qed.

Lemma mapM'_inl xs e :
  mapM' f xs = inl e -> exists x, In x xs /\ f x = inl e.
Proof.
  induction xs as [|x xs IH]; simpl; [discriminate|].
  destruct (f x) as [e'|y] eqn:Hx; simpl.
  - intros [= <-]. eauto.
  - destruct (mapM' f xs) as [e'|ys]; simpl; [|discriminate].
    intros [= <-]. destruct (IH eq_refl) as (x' & Hin & Hx'). eauto.
Qed.

Lemma mapM'_total xs :
  (forall x, In x xs -> exists y, f x = inr y) -> exists ys, mapM' f xs = inr ys.
Proof.
  induction xs as [|x xs IH]; simpl; intros H; [eauto|].
  destruct (H x (or_introl eq_refl)) as [y ->]. simpl.
  destruct IH as [ys ->]; [intros; apply H; right; assumption|]. simpl. eauto.
Qed.

Lemma mapM'_fails xs x :
  In x xs -> (exists e, f x = inl e) -> exists e, mapM' f xs = inl e.
Proof.
  intros Hin Hx. induction xs as [|a xs IH]; [contradiction|]. simpl.
  destruct (f a) as [e|y] eqn:Ha; [eauto|]. simpl.
  destruct Hin as [->|Hin].
  - destruct Hx as [e He]. congruence.
  - destruct (IH Hin) as [e ->]. eauto.
Qed.

End Loops.

Lemma foldM_fails {A S} (body : S -> A -> result S) xs x :
  In x xs -> (forall s, exists e, body s x = inl e) ->
  forall s, exists e, foldM body xs s = inl e.
Proof.
  intros Hin Hx. induction xs as [|a xs IH]; [contradiction|]. intros s. simpl.
  destruct (body s a) as [e|s'] eqn:Ha; [eauto|]. simpl.
  destruct Hin as [->|Hin].
  - destruct (Hx s) as [e He]. congruence.
  - exact (IH Hin s').
Qed.

(** ** Strings *)

Lemma app_cons c s t : String c s +:+ t = String c (s +:+ t).
Proof. reflexivity. Qed.

Lemma app_empty_r s : s +:+ "" = s.
Proof. induction s as [|c s IH]; [reflexivity|]. rewrite app_cons, IH. reflexivity. Qed.

Lemma app_assoc' s t u : (s +:+ t) +:+ u = s +:+ (t +:+ u).
Proof.
  induction s as [|c s IH]; [reflexivity|].
  rewrite !app_cons, IH. reflexivity.
Qed.

Lemma rev_app s t : Py.rev (s +:+ t) = Py.rev t +:+ Py.rev s.
Proof.
  induction s as [|c s IH]; simpl.
  - symmetry. apply app_empty_r.
  - rewrite IH, app_assoc'. reflexivity.
Qed.

Lemma rev_involutive s : Py.rev (Py.rev s) = s.
Proof.
  induction s as [|c s IH]; [reflexivity|].
  simpl. rewrite rev_app, IH. reflexivity.
Qed.

Lemma startswith_spec s p : Py.startswith s p = true <-> exists q, s = p +:+ q.
Proof.
  revert s. induction p as [|a p IH]; intros s; simpl.
  - split; [intros _; exists s; reflexivity | reflexivity].
  - destruct s as [|b s].
    + split; [discriminate | intros [q Hq]; discriminate].
    + rewrite andb_true_iff, Ascii.eqb_eq, IH. split.
      * intros [-> [q ->]]. exists q. reflexivity.
      * intros [q Hq]. rewrite app_cons in Hq. injection Hq as -> ->. eauto.
Qed.

Lemma endswith_spec s k : Py.endswith s k = true <-> is_suffix k s.
Proof.
  unfold Py.endswith, is_suffix. rewrite startswith_spec. split.
  - intros [q Hq]. exists (Py.rev q).
    rewrite <- (rev_involutive s), Hq, rev_app, rev_involutive. reflexivity.
  - intros [pre ->]. exists (Py.rev pre). apply rev_app.
Qed.


(** ** Digit runs *)

Lemma isdigit_value c : Py.isdigit c = true -> 0 <= Py.digit_value c <= 9.
Proof.
  unfold Py.isdigit, Py.digit_value. rewrite andb_true_iff, !N.leb_le. lia.
Qed.

Lemma int_from_nonneg s : forall acc,
  0 <= acc -> all_chars Py.isdigit s = true -> 0 <= Py.int_from acc s.
Proof.
  induction s as [|c s IH]; simpl; intros acc Hacc Hall; [exact Hacc|].
  apply andb_true_iff in Hall as [Hc Hs].
  apply IH; [|exact Hs]. pose proof (isdigit_value c Hc). lia.
Qed.

Lemma int_nonneg run : digit_run run -> 0 <= Py.int run.
Proof. intros [_ H]. apply int_from_nonneg; [lia | exact H]. Qed.

Lemma int_from_decimal d : forall acc,
  Py.int_from (Z.pos acc) (NilEmpty.string_of_uint d) = Z.pos (Pos.of_uint_acc d acc).
Proof.
  induction d; intros acc; simpl; try reflexivity;
    rewrite <- IHd; f_equal; unfold Py.digit_value; simpl; lia.
Qed.

(** [int] reads back the decimal writing of a natural number. *)
Lemma int_of_decimal n : Py.int (NilEmpty.string_of_uint (N.to_uint n)) = Z.of_N n.
Proof.
  rewrite <- (DecimalN.Unsigned.of_to n) at 2. unfold Py.int, N.of_uint.
  induction (N.to_uint n); simpl; try reflexivity; try exact IHu;
    try (rewrite <- int_from_decimal; reflexivity).
Qed.

Lemma findall_digit_nonempty c s :
  Py.isdigit c = true -> Py.findall_digits (String c s) <> [].
Proof.
  intros Hc. simpl. rewrite Hc.
  destruct (Py.starts_with_digit s); [destruct (Py.findall_digits s)|]; discriminate.
Qed.








Lemma first_of_findall token : forall run rest,
  Py.findall_digits token = run :: rest -> first_maximal_run token run.
Proof.
  induction token as [|c s IH]; intros run rest; simpl; [discriminate|].
  destruct (Py.isdigit c) eqn:Hc.
  - destruct (Py.starts_with_digit s) eqn:Hs.
    + destruct (Py.findall_digits s) as [|r rs] eqn:Hf.
      * destruct s as [|d s]; [discriminate|]. simpl in Hs.
        exfalso. exact (findall_digit_nonempty d s Hs Hf).
      * intros [= <- <-].
        destruct (IH r rs eq_refl) as (pre & post & Heq & Hpre & [Hne Hall] & Hpost).
        destruct pre as [|p pre].
        -- exists EmptyString, post. simpl in Heq. subst s.
           repeat split; [discriminate | | exact Hpost].
           simpl. rewrite Hc. exact Hall.
        -- exfalso. subst s. simpl in Hs. unfold no_digit in Hpre. simpl in Hpre.
           rewrite Hs in Hpre. discriminate.
    + intros [= <- <-]. exists EmptyString, s.
      repeat split; [discriminate | simpl; rewrite Hc; reflexivity | exact Hs].
  - intros Hf. destruct (IH run rest Hf) as (pre & post & -> & Hpre & Hrun & Hpost).
    exists (String c pre), post. repeat split; try tauto; try apply Hrun.
    unfold no_digit. simpl. rewrite Hc. exact Hpre.
Qed.

(** ** The change parser *)

Lemma startswith_minus c s : Py.startswith (String c s) "-" = Ascii.eqb c "-".
Proof.
  change (Py.startswith (String c s) "-") with (Ascii.eqb "-" c && true).
  rewrite andb_true_r. apply Ascii.eqb_sym.
Qed.

Lemma init_spec token :
  token <> EmptyString ->
  StateChange.__init__ token =
  match Py.findall_digits token with
  | [] => inl MalformedToken
  | run :: _ =>
      inr (StateChange.mk (if Py.startswith token "-" then LOSS else GAIN)
             (StateChange.resource_loop token StateChange._RESOURCE_MAP)
             (Py.int run))
  end.
Proof.
  destruct token as [|c s]; [congruence|]. intros _.
  rewrite startswith_minus. reflexivity.
Qed.










(** ** Failure propagation *)








(** The emptiness guard of the constructor, which precedes the parse. *)
Example empty_token_error :
  StateChange.__init__ "" = inl (ValueError EmptyStateChangeString).
Proof. reflexivity. Qed.

Example abc_aborts_run :
  main [row3 "terrans builds" ["federation"] ["abc"]]%string = inl MalformedToken.
Proof. vm_compute. reflexivity. Qed.

(** ** The row classifier *)






Lemma parse_row_cons col0 rest :
  LogItem.parse_from_HTML (col0 :: rest) =
  let* text := strip_attr (string_ col0) in
  match rest with
  | [col1; col2] =>
      let* events := LogItem._compute_events col1 col2 in
      ret (LogItem.mk text (LogItem._get_faction text) (Some events))
  | _ => ret (LogItem.mk text (LogItem._get_faction text) None)
  end.
Proof. reflexivity. Qed.



(** A description cell that holds no single piece of text: [.string] is
    [None] and [.strip()] raises before the cells are counted further. *)
Example description_without_text :
  LogItem.parse_from_HTML [mkTag None []] = inl AttributeError.
Proof. reflexivity. Qed.


(** ** The log builder *)

(** C3: the entries of the constructed log are the classifications of the
    rows taken in reverse order, one entry per row, oldest first; and the
    log is built, once, whenever every row classifies. *)
Theorem log_entries_are_reversed_rows (log_rows : list Row) :
  (forall log, GameLog.parse_from_HTML log_rows = inr log ->
     Forall2 (fun row item => LogItem.parse_from_HTML row = inr item)
             (rev log_rows) (GameLog.items log)) /\
  ((forall row, In row log_rows -> exists item, LogItem.parse_from_HTML row = inr item) ->
   exists log, GameLog.parse_from_HTML log_rows = inr log).
Proof.
  unfold GameLog.parse_from_HTML. split.
  - intros log.
    destruct (mapM' LogItem.parse_from_HTML (rev log_rows)) as [e|items] eqn:Hitems;
      simpl; [discriminate|].
    intros [= <-]. simpl. apply mapM'_inr. exact Hitems.
  - intros Hall.
    destruct (mapM'_total LogItem.parse_from_HTML (rev log_rows)) as [items ->].
    + intros row Hin. apply Hall. apply in_rev. exact Hin.
    + simpl. eauto.
Qed.

Lemma log_entries_are_reversed_rows_witness :
  let items := [LogItem.mk "ivits pass" (Some "ivits"%string) None;
                LogItem.mk "terrans pass" (Some "terrans"%string) None] in
  Forall2 (fun row item => LogItem.parse_from_HTML row = inr item)
          [[text_cell "ivits pass"]; [text_cell "terrans pass"]] items /\
  exists log,
    GameLog.parse_from_HTML [[text_cell "terrans pass"]; [text_cell "ivits pass"]]
    = inr log.
Proof.
  intros items. split.
  - exact (proj1 (log_entries_are_reversed_rows
                    [[text_cell "terrans pass"]; [text_cell "ivits pass"]])
                 (GameLog.mk (fold_left GameLog.add_faction items ∅) items)
                 eq_refl).
  - apply (proj2 (log_entries_are_reversed_rows
                    [[text_cell "terrans pass"]; [text_cell "ivits pass"]])).
    intros row [<-|[<-|[]]]; eexists; reflexivity.
Defined.

(** ** The accumulator, one delta at a time *)

Lemma update_vp_spec action change v :
  StateChange.resource change = Some VP ->
  VPStats.update_vp action change v =
  inr (VPStats.set_vp
         (fun x => match StateChange.type change with
                   | GAIN => x + StateChange.quantity change
                   | LOSS => x - StateChange.quantity change
                   end)
         (VPStats.classify action (StateChange.quantity change) v)).
Proof.
  intros Hr. unfold VPStats.update_vp, get_resource. rewrite Hr. simpl.
  destruct (StateChange.type change); reflexivity.
Qed.

Lemma classify_vp action q v : VPStats.vp (VPStats.classify action q v) = VPStats.vp v.
Proof.
  unfold VPStats.classify. destruct v.
  repeat match goal with |- context [if ?b then _ else _] => destruct b end;
    reflexivity.
Qed.

Lemma classify_charge q v :
  VPStats.classify "charge" q v = VPStats.set_vp_lost_from_leech (fun x => x - q) v.
Proof. reflexivity. Qed.

Lemma classify_buckets action q v :
  Forall2 (fun before after => after = before \/ after = before + q)
          (gain_buckets v) (gain_buckets (VPStats.classify action q v)) /\
  (VPStats.vp_lost_from_leech (VPStats.classify action q v) = VPStats.vp_lost_from_leech v \/
   VPStats.vp_lost_from_leech (VPStats.classify action q v) = VPStats.vp_lost_from_leech v - q).
Proof.
  unfold VPStats.classify. destruct v.
  repeat match goal with |- context [if ?b then _ else _] => destruct b end;
    (split;
     [ simpl;
       repeat (constructor; [first [left; reflexivity | right; reflexivity]|]);
       constructor
     | first [left; reflexivity | right; reflexivity] ]).
Qed.

(** C6: accumulating the event ("charge", [Gain VictoryPoint N]) adds N to
    the total victory points and subtracts N from the leech bucket, leaving
    every other counter as it was; and under any action label a Gain of N
    victory points leaves each of the nine other buckets unchanged or N
    higher, so that the leech bucket is the only one a gain can lower. *)
Theorem charge_gain_lowers_leech_bucket (N : Z) (self : FactionStats.t) :
  let v := FactionStats.vp_stats self in
  let gain := StateChange.mk GAIN (Some VP) N in
  (exists v',
     FactionStats.augment ("charge"%string, [Some gain]) self =
       inr (FactionStats.mk (FactionStats.faction self) v'
              (FactionStats.resource_stats self)) /\
     VPStats.vp v' = VPStats.vp v + N /\
     VPStats.vp_lost_from_leech v' = VPStats.vp_lost_from_leech v - N /\
     gain_buckets v' = gain_buckets v) /\
  (forall action, exists v',
     VPStats.update_vp action gain v = inr v' /\
     VPStats.vp v' = VPStats.vp v + N /\
     Forall2 (fun before after => after = before \/ after = before + N)
             (gain_buckets v) (gain_buckets v')).
Proof.
  intros v gain. split.
  - eexists. split; [reflexivity|]. subst v. destruct self as [f [] r]. simpl.
    repeat split.
  - intros action. rewrite update_vp_spec by reflexivity. eexists.
    split; [reflexivity|]. simpl. split.
    + pose proof (classify_vp action N v) as H.
      destruct (VPStats.classify action N v). simpl in *. lia.
    + pose proof (proj1 (classify_buckets action N v)) as H.
      destruct (VPStats.classify action N v). exact H.
Qed.

Lemma getattr_field r s field :
  ResourceStats._RESOURCE_TO_FIELD_MAP r = inr field ->
  ResourceStats.getattr s field = inr (counter r s).
Proof. destruct r; simpl; intros [= <-]; reflexivity. Qed.

Lemma update_resources_gain action change r s :
  StateChange.type change = GAIN ->
  StateChange.resource change = Some r -> r <> VP ->
  exists s',
    ResourceStats.update_resources action change s = inr s' /\
    counter r s' = counter r s + StateChange.quantity change /\
    ResourceStats.leech s' =
      ResourceStats.leech s +
      (if String.eqb "charge" action then StateChange.quantity change else 0) /\
    (forall r', r' <> r -> counter r' s' = counter r' s).
Proof.
  intros Ht Hr Hvp. unfold ResourceStats.update_resources, get_resource.
  rewrite Ht, Hr.
  destruct s as [l p c o k q t].
  destruct (String.eqb "charge" action);
    destruct r; try congruence;
    (eexists; split; [reflexivity|];
     split; [simpl; lia|]; split; [simpl; lia|];
     intros r' Hr'; destruct r'; simpl; congruence).
Qed.

(** C7: for a delta whose resource is not VictoryPoint, a Loss leaves every
    resource counter (the leech-resource counter included) unchanged; a Gain
    adds its quantity to the counter of its own resource kind and to no
    other kind, and adds it to the leech-resource counter as well exactly
    when the action label is "charge".  The accumulator routes such a delta
    to this bookkeeping and leaves the victory-point counters alone. *)
Theorem resource_delta_bookkeeping (action : string) (change : StateChange.t)
    (r : Res) (self : FactionStats.t) :
  StateChange.resource change = Some r -> r <> VP ->
  let s := FactionStats.resource_stats self in
  exists s',
    ResourceStats.update_resources action change s = inr s' /\
    FactionStats.augment (action, [Some change]) self =
      inr (FactionStats.mk (FactionStats.faction self) (FactionStats.vp_stats self) s') /\
    match StateChange.type change with
    | LOSS => s' = s
    | GAIN =>
        counter r s' = counter r s + StateChange.quantity change /\
        (forall r', r' <> r -> counter r' s' = counter r' s) /\
        (action = "charge"%string ->
         ResourceStats.leech s' = ResourceStats.leech s + StateChange.quantity change) /\
        (action <> "charge"%string -> ResourceStats.leech s' = ResourceStats.leech s)
    end.
Proof.
  intros Hr Hvp s.
  assert (Hroute : forall s',
    ResourceStats.update_resources action change s = inr s' ->
    FactionStats.augment (action, [Some change]) self =
      inr (FactionStats.mk (FactionStats.faction self) (FactionStats.vp_stats self) s')).
  { intros s' Hs'. unfold FactionStats.augment. simpl.
    unfold get_resource. rewrite Hr. simpl.
    rewrite bool_decide_eq_false_2 by exact Hvp. fold s. rewrite Hs'. reflexivity. }
  destruct (StateChange.type change) eqn:Ht.
  - destruct (update_resources_gain action change r s Ht Hr Hvp)
      as (s' & Hs' & Hc & Hl & Ho).
    exists s'. split; [exact Hs'|]. split; [exact (Hroute s' Hs')|].
    split; [exact Hc|]. split; [exact Ho|]. rewrite Hl. split.
    + intros ->. reflexivity.
    + intros Hne. apply String.eqb_neq in Hne. rewrite String.eqb_sym, Hne. lia.
  - assert (Hs : ResourceStats.update_resources action change s = inr s)
      by (unfold ResourceStats.update_resources; rewrite Ht; reflexivity).
    exists s. split; [exact Hs|]. split; [exact (Hroute s Hs) | reflexivity].
Qed.

Lemma resource_delta_bookkeeping_witness :
  exists s',
    ResourceStats.update_resources "charge" (StateChange.mk GAIN (Some POWER) 2)
      ResourceStats.__init__ = inr s' /\
    ResourceStats.power s' = 2 /\ ResourceStats.leech s' = 2.
Proof.
  destruct (resource_delta_bookkeeping "charge" (StateChange.mk GAIN (Some POWER) 2)
              POWER (FactionStats.__init__ "terrans") eq_refl)
    as (s' & Hs' & _ & Hpower & _ & Hleech & _).
  - discriminate.
  - exists s'. split; [exact Hs'|]. split; [exact Hpower | exact (Hleech eq_refl)].
Defined.

Example loss_ore_ignored :
  FactionStats.augment ("convert"%string, [Some (StateChange.mk LOSS (Some ORE) 3)])
    (FactionStats.__init__ "terrans")
  = inr (FactionStats.__init__ "terrans").
Proof. reflexivity. Qed.

(** ** Absent deltas *)

(** C2, as the code has it: an absent delta is not skipped.  The loop of
    [augment] reads [change.resource] on every entry of the change list, so
    an event with an absent delta anywhere in its deltas makes the
    accumulation raise, and with it the whole run: the row whose change
    group is "2pw  1vp" (two spaces) yields the deltas 2pw, absent, 1vp and
    the run ends with AttributeError. *)
Theorem absent_delta_raises :
  main [row3 "terrans charges" ["charge"] ["2pw  1vp"]]%string = inl AttributeError /\
  LogItem.parse_from_HTML (row3 "terrans charges" ["charge"] ["2pw  1vp"])%string =
    inr (LogItem.mk "terrans charges" (Some "terrans"%string)
           (Some [("charge"%string,
                   [Some (StateChange.mk GAIN (Some POWER) 2); None;
                    Some (StateChange.mk GAIN (Some VP) 1)])])) /\
  forall action changes self,
    In None changes ->
    exists e, FactionStats.augment (action, changes) self = inl e.
Proof.
  split; [vm_compute; reflexivity|]. split; [vm_compute; reflexivity|].
  intros action changes self Hin. unfold FactionStats.augment. simpl.
  apply (foldM_fails _ _ None Hin). intros s. exists AttributeError. reflexivity.
Qed.

Lemma absent_delta_raises_witness :
  exists e,
    FactionStats.augment ("charge"%string, [Some (StateChange.mk GAIN (Some VP) 1); None])
      (FactionStats.__init__ "terrans") = inl e.
Proof.
  apply (proj2 (proj2 absent_delta_raises)). right. left. reflexivity.
Defined.

(** ** The victory-point total *)

Lemma vp_sum_changes_app d xs ys :
  vp_sum_changes d (xs ++ ys) = vp_sum_changes d xs + vp_sum_changes d ys.
Proof.
  unfold vp_sum_changes. induction xs as [|x xs IH]; simpl; [reflexivity|].
  rewrite IH. lia.
Qed.

Lemma vp_sum_app d xs ys : vp_sum d (xs ++ ys) = vp_sum d xs + vp_sum d ys.
Proof. unfold vp_sum. rewrite flat_map_app. apply vp_sum_changes_app. Qed.

Lemma net_vp_app xs ys : net_vp (xs ++ ys) = net_vp xs + net_vp ys.
Proof. unfold net_vp. rewrite !vp_sum_app. lia. Qed.

Lemma net_vp_cons action changes events :
  net_vp ((action, changes) :: events) =
  vp_sum_changes GAIN changes - vp_sum_changes LOSS changes + net_vp events.
Proof.
  unfold net_vp, vp_sum. simpl. rewrite !vp_sum_changes_app. lia.
Qed.

Lemma augment_change_vp action self change self' :
  FactionStats.augment_change action self change = inr self' ->
  VPStats.vp (FactionStats.vp_stats self') =
    VPStats.vp (FactionStats.vp_stats self)
    + vp_quantity GAIN change - vp_quantity LOSS change.
Proof.
  destruct change as [c|]; [|discriminate]. unfold FactionStats.augment_change.
  unfold get_resource at 1.
  destruct (StateChange.resource c) as [r|] eqn:Hr; [|discriminate]. simpl.
  destruct (bool_decide (r = VP)) eqn:Hvp.
  - apply bool_decide_eq_true in Hvp. subst r.
    rewrite update_vp_spec by exact Hr. simpl. intros [= <-]. simpl.
    rewrite Hr.
    pose proof (classify_vp action (StateChange.quantity c) (FactionStats.vp_stats self)) as Hc.
    destruct (VPStats.classify action (StateChange.quantity c) (FactionStats.vp_stats self)).
    simpl in *. subst.
    destruct (StateChange.type c); simpl; lia.
  - apply bool_decide_eq_false in Hvp.
    destruct (ResourceStats.update_resources action c (FactionStats.resource_stats self));
      simpl; [discriminate|].
    intros [= <-]. simpl. rewrite Hr.
    rewrite !bool_decide_eq_false_2 by (intros [? _]; congruence). lia.
Qed.

Lemma augment_vp action changes : forall self self',
  FactionStats.augment (action, changes) self = inr self' ->
  VPStats.vp (FactionStats.vp_stats self') =
    VPStats.vp (FactionStats.vp_stats self)
    + (vp_sum_changes GAIN changes - vp_sum_changes LOSS changes).
Proof.
  unfold FactionStats.augment. simpl.
  induction changes as [|change changes IH]; intros self self'; simpl.
  - intros [= <-]. unfold vp_sum_changes. simpl. lia.
  - destruct (FactionStats.augment_change action self change) as [e|s1] eqn:H1;
      simpl; [discriminate|].
    intros H. apply IH in H. apply augment_change_vp in H1.
    unfold vp_sum_changes in *. simpl. lia.
Qed.

Lemma total_vp_insert m f s g :
  total_vp (<[f := s]> m) g =
  if decide (g = f) then Some (VPStats.vp (FactionStats.vp_stats s)) else total_vp m g.
Proof.
  unfold total_vp. destruct (decide (g = f)) as [->|Hne].
  - rewrite lookup_insert_eq. reflexivity.
  - rewrite lookup_insert_ne by congruence. reflexivity.
Qed.

Lemma augment_faction_events f events : forall m m',
  foldM (Stats.augment_faction f) events m = inr m' ->
  forall g, total_vp m' g =
            (fun v => v + (if decide (g = f) then net_vp events else 0)) <$> total_vp m g.
Proof.
  induction events as [|[action changes] events IH]; intros m m'; simpl.
  - intros [= <-] g. unfold net_vp, vp_sum, vp_sum_changes. simpl.
    destruct (total_vp m g); simpl; [|reflexivity].
    f_equal. destruct (decide (g = f)); lia.
  - unfold Stats.augment_faction at 1.
    destruct (m !! f) as [s|] eqn:Hs; [|discriminate].
    destruct (FactionStats.augment (action, changes) s) as [e|s'] eqn:Ha;
      simpl; [discriminate|].
    intros H g. rewrite (IH _ _ H g), total_vp_insert, net_vp_cons.
    apply augment_vp in Ha.
    destruct (decide (g = f)) as [->|Hne].
    + unfold total_vp. rewrite Hs. simpl. f_equal. lia.
    + reflexivity.
Qed.

Lemma fmap_add_0 (o : option Z) : (fun v => v + 0) <$> o = o.
Proof. destruct o; simpl; [f_equal; lia | reflexivity]. Qed.

Lemma augment_item_vp m item m' :
  Stats.augment_item m item = inr m' ->
  forall g, g <> EmptyString ->
    total_vp m' g = (fun v => v + net_vp (item_events g item)) <$> total_vp m g.
Proof.
  unfold Stats.augment_item, item_events.
  destruct (LogItem.faction item) as [[|c f]|];
    [ | destruct (LogItem.events item) as [[|ev evs]|] | ].
  - intros [= <-] g Hg.
    destruct (LogItem.events item); [|symmetry; apply fmap_add_0].
    rewrite bool_decide_eq_false_2 by congruence. symmetry. apply fmap_add_0.
  - intros [= <-] g Hg. destruct (bool_decide _); symmetry; apply fmap_add_0.
  - intros H g Hg. rewrite (augment_faction_events _ _ _ _ H g).
    destruct (decide (g = String c f)) as [->|Hne].
    + rewrite bool_decide_eq_true_2 by reflexivity. reflexivity.
    + rewrite bool_decide_eq_false_2 by congruence. reflexivity.
  - intros [= <-] g Hg. symmetry. apply fmap_add_0.
  - intros [= <-] g Hg. symmetry. apply fmap_add_0.
Qed.

Lemma augment_items_vp items : forall m m',
  foldM Stats.augment_item items m = inr m' ->
  forall g, g <> EmptyString ->
    total_vp m' g =
    (fun v => v + net_vp (flat_map (item_events g) items)) <$> total_vp m g.
Proof.
  induction items as [|item items IH]; intros m m'; simpl.
  - intros [= <-] g Hg. symmetry. apply fmap_add_0.
  - destruct (Stats.augment_item m item) as [e|m1] eqn:H1; simpl; [discriminate|].
    intros H g Hg. rewrite (IH _ _ H g Hg), (augment_item_vp _ _ _ H1 g Hg).
    rewrite net_vp_app. destruct (total_vp m g); simpl; [f_equal; lia | reflexivity].
Qed.

Lemma initial_stats (factions : gset string) g :
  g ∈ factions ->
  (set_to_map (fun faction => (faction, FactionStats.__init__ faction)) factions
     : gmap string FactionStats.t) !! g = Some (FactionStats.__init__ g).
Proof.
  intros Hg. apply lookup_set_to_map.
  - intros y y' _ _ Heq. exact Heq.
  - exists g. split; [exact Hg | reflexivity].
Qed.

Lemma total_vp_is_Some m g : is_Some (total_vp m g) <-> is_Some (m !! g).
Proof. unfold total_vp. apply fmap_is_Some. Qed.

Lemma augment_change_total action self c r :
  StateChange.resource c = Some r ->
  exists self', FactionStats.augment_change action self (Some c) = inr self'.
Proof.
  intros Hr. unfold FactionStats.augment_change, get_resource at 1. rewrite Hr. simpl.
  destruct (bool_decide (r = VP)) eqn:Hvp.
  - apply bool_decide_eq_true in Hvp. subst r.
    rewrite update_vp_spec by exact Hr. simpl. eauto.
  - apply bool_decide_eq_false in Hvp.
    destruct (StateChange.type c) eqn:Ht.
    + destruct (update_resources_gain action c r (FactionStats.resource_stats self)
                  Ht Hr Hvp) as (s' & -> & _). simpl. eauto.
    + unfold ResourceStats.update_resources. rewrite Ht. simpl. eauto.
Qed.

Lemma augment_total action changes :
  (forall change, In change changes ->
     exists c r, change = Some c /\ StateChange.resource c = Some r) ->
  forall self, exists self', FactionStats.augment (action, changes) self = inr self'.
Proof.
  unfold FactionStats.augment. simpl.
  induction changes as [|change changes IH]; intros Hall self; simpl; [eauto|].
  destruct (Hall change (or_introl eq_refl)) as (c & r & -> & Hr).
  destruct (augment_change_total action self c r Hr) as [s1 ->]. simpl.
  apply IH. intros ch Hin. apply Hall. right. exact Hin.
Qed.

Lemma augment_faction_total f events :
  (forall event change, In event events -> In change event.2 ->
     exists c r, change = Some c /\ StateChange.resource c = Some r) ->
  forall m, is_Some (m !! f) ->
  exists m', foldM (Stats.augment_faction f) events m = inr m'.
Proof.
  induction events as [|[action changes] events IH]; intros Hall m Hm; simpl; [eauto|].
  unfold Stats.augment_faction at 1. destruct Hm as [s ->].
  destruct (augment_total action changes) with (self := s) as [s' ->].
  { intros change Hin. exact (Hall (action, changes) change (or_introl eq_refl) Hin). }
  simpl. apply IH.
  - intros event change Hev Hch. exact (Hall event change (or_intror Hev) Hch).
  - rewrite lookup_insert_eq. eauto.
Qed.

Lemma augment_item_dom m item m' :
  Stats.augment_item m item = inr m' ->
  forall g, is_Some (m' !! g) <-> is_Some (m !! g).
Proof.
  unfold Stats.augment_item.
  destruct (LogItem.faction item) as [[|c f]|];
    [ | destruct (LogItem.events item) as [[|ev evs]|] | ];
    try (intros [= <-] g; reflexivity).
  intros H g. rewrite <- !total_vp_is_Some.
  rewrite (augment_faction_events _ _ _ _ H g). apply fmap_is_Some.
Qed.

Lemma augment_items_total (factions : gset string) items :
  (forall item f events,
     In item items -> LogItem.faction item = Some f -> f <> EmptyString ->
     LogItem.events item = Some events ->
     f ∈ factions /\
     forall event change, In event events -> In change event.2 ->
       exists c r, change = Some c /\ StateChange.resource c = Some r) ->
  forall m : gmap string FactionStats.t,
    (forall g, g ∈ factions -> is_Some (m !! g)) ->
    exists m', foldM Stats.augment_item items m = inr m'.
Proof.
  induction items as [|item items IH]; intros Hwf m Hm; simpl; [eauto|].
  assert (H1 : exists m1, Stats.augment_item m item = inr m1).
  { unfold Stats.augment_item.
    destruct (LogItem.faction item) as [[|c f]|] eqn:Hf; [eauto| |eauto].
    destruct (LogItem.events item) as [[|ev evs]|] eqn:He; [eauto| |eauto].
    destruct (Hwf item (String c f) (ev :: evs) (or_introl eq_refl) Hf
                ltac:(discriminate) He) as [Hin Hch].
    apply augment_faction_total; [exact Hch | exact (Hm _ Hin)]. }
  destruct H1 as [m1 H1]. rewrite H1. simpl. apply IH.
  - intros it f events Hin. apply Hwf. right. exact Hin.
  - intros g Hg. apply (augment_item_dom _ _ _ H1). exact (Hm g Hg).
Qed.

Lemma vp_total_after_pass log st faction :
  Stats.__init__ log = inr st ->
  faction ∈ GameLog.factions log -> faction <> EmptyString ->
  total_vp (Stats.faction_stats st) faction =
    Some (10 + vp_sum GAIN (participant_events faction log)
             - vp_sum LOSS (participant_events faction log)).
Proof.
  unfold Stats.__init__. intros Hst Hin Hne.
  destruct (foldM Stats.augment_item (GameLog.items log) _) as [e|m] eqn:Hfold;
    simpl in Hst; [discriminate|].
  injection Hst as <-. simpl.
  rewrite (augment_items_vp _ _ _ Hfold faction Hne).
  unfold total_vp at 1. rewrite (initial_stats _ _ Hin). simpl.
  unfold participant_events, net_vp. f_equal. lia.
Qed.

Lemma pass_completes log :
  well_formed_log log -> exists st, Stats.__init__ log = inr st.
Proof.
  intros Hwf. unfold Stats.__init__.
  destruct (augment_items_total (GameLog.factions log) (GameLog.items log) Hwf
              (set_to_map (fun faction => (faction, FactionStats.__init__ faction))
                 (GameLog.factions log))) as [m ->].
  - intros g Hg. rewrite (initial_stats _ _ Hg). eauto.
  - simpl. eauto.
Qed.

(** C1: when the aggregation pass over a log completes, the total victory
    points of every participant of the log are 10, plus the quantities of
    the Gain VictoryPoint deltas, minus the quantities of the Loss
    VictoryPoint deltas of all the events the log records for that
    participant; the action labels, which select the bucket, play no part.
    The pass completes on every log whose recorded deltas are all present
    with a resolved resource. *)
Theorem total_victory_points (log : GameLog.t) :
  (forall st faction,
     Stats.__init__ log = inr st ->
     faction ∈ GameLog.factions log -> faction <> EmptyString ->
     total_vp (Stats.faction_stats st) faction =
       Some (10 + vp_sum GAIN (participant_events faction log)
                - vp_sum LOSS (participant_events faction log))) /\
  (well_formed_log log -> exists st, Stats.__init__ log = inr st).
Proof.
  split.
  - intros st faction. apply vp_total_after_pass.
  - apply pass_completes.
Qed.

Lemma total_victory_points_witness :
  let log :=
    GameLog.mk {["terrans"%string]}
      [LogItem.mk "terrans charges" (Some "terrans"%string)
         (Some [("charge"%string, [Some (StateChange.mk GAIN (Some VP) 3)])]);
       LogItem.mk "terrans scores round" (Some "terrans"%string)
         (Some [("round"%string, [Some (StateChange.mk GAIN (Some VP) 2);
                                  Some (StateChange.mk LOSS (Some VP) 1)])])] in
  exists st,
    Stats.__init__ log = inr st /\
    total_vp (Stats.faction_stats st) "terrans" = Some 14.
Proof.
  intros log.
  destruct (proj2 (total_victory_points log)) as [st Hst].
  - intros item f events [<-|[<-|[]]] [= <-] _ [= <-];
      (split; [vm_compute; reflexivity|]);
      intros event change [<-|[]] Hch; simpl in Hch;
      repeat (destruct Hch as [<-|Hch]; [eauto|]); contradiction.
  - exists st. split; [exact Hst|].
    rewrite (proj1 (total_victory_points log) st "terrans"%string Hst).
    + reflexivity.
    + vm_compute. reflexivity.
    + discriminate.
Defined.

(** ** The percentage view *)

Lemma truediv_zero counter : Float.truediv counter 0 = inl ZeroDivisionError.
Proof. reflexivity. Qed.

Lemma truediv_nonzero counter vp :
  vp <> 0 ->
  Float.truediv counter vp =
  match SFdiv Float.prec Float.emax (Float.of_int counter) (Float.of_int vp) with
  | S754_infinity _ => inl OverflowError
  | q => inr q
  end.
Proof.
  intros Hvp. unfold Float.truediv.
  destruct (Z.eqb_spec vp 0) as [->|_]; [contradiction|].
  destruct (SFdiv _ _ _ _); reflexivity.
Qed.

Lemma percentage_nonzero counter vp :
  vp <> 0 ->
  Report.percentage counter vp <> inl ZeroDivisionError /\
  forall x, Report.percentage counter vp = inr x -> x = quotient_times_100 counter vp.
Proof.
  intros Hvp. unfold Report.percentage, quotient_times_100.
  rewrite truediv_nonzero by exact Hvp.
  destruct (SFdiv _ _ _ _); simpl; (split; [discriminate|]); congruence.
Qed.

Lemma percentage_row_error entry e :
  Report.percentage_row entry = inl e -> e = ZeroDivisionError \/ e = OverflowError.
Proof.
  destruct entry as [faction stats]. unfold Report.percentage_row.
  destruct (mapM' _ (Report.categories stats)) as [e'|cells] eqn:Hcells;
    simpl; [|discriminate].
  intros [= <-]. apply mapM'_inl in Hcells as (c & _ & Hc).
  unfold Report.percentage, Float.truediv in Hc.
  destruct (VPStats.vp (FactionStats.vp_stats stats) =? 0);
    [left; simpl in Hc; congruence|].
  destruct (SFdiv _ _ _ _); simpl in Hc; try discriminate.
  right. congruence.
Qed.

Lemma percentage_row_zero faction stats :
  VPStats.vp (FactionStats.vp_stats stats) = 0 ->
  Report.percentage_row (faction, stats) = inl ZeroDivisionError.
Proof. intros H. unfold Report.percentage_row. rewrite H. reflexivity. Qed.

Lemma percentage_cells vp counters cells :
  vp <> 0 ->
  mapM' (fun counter => Report.percentage counter vp) counters = inr cells ->
  cells = map (fun counter => quotient_times_100 counter vp) counters.
Proof.
  intros Hvp H. apply mapM'_inr in H.
  induction H as [|c x cs xs Hc _ IH]; [reflexivity|]. simpl. f_equal; [|exact IH].
  exact (proj2 (percentage_nonzero c vp Hvp) x Hc).
Qed.

(** C10: the percentage view has no guard for a zero total.  Each cell
    [counter/vp*100] raises ZeroDivisionError when the participant's total
    is zero, so the participant's row, and with it the whole view and the
    report, fail (an earlier row can only have failed for a quotient beyond
    the float range).  For a participant with a non-zero total no cell divides
    by zero, and each reported percentage is the category counter divided
    by the total and multiplied by 100, in the column order of the table;
    the row is produced whenever no quotient exceeds the float range. *)
Theorem percentage_view_by_total (faction : string) (stats : FactionStats.t) :
  let vp := VPStats.vp (FactionStats.vp_stats stats) in
  (vp = 0 ->
   (forall counter, Report.percentage counter vp = inl ZeroDivisionError) /\
   Report.percentage_row (faction, stats) = inl ZeroDivisionError /\
   forall items, In (faction, stats) items ->
     exists e, (e = ZeroDivisionError \/ e = OverflowError) /\
               Report.percentage_rows items = inl e /\ Report.breakdown items = inl e) /\
  (vp <> 0 ->
   Report.percentage_row (faction, stats) <> inl ZeroDivisionError /\
   (forall row, Report.percentage_row (faction, stats) = inr row ->
      row = (faction,
             map (fun counter => quotient_times_100 counter vp)
                 (Report.categories stats))) /\
   ((forall counter, In counter (Report.categories stats) ->
       Float.truediv counter vp <> inl OverflowError) ->
    exists row, Report.percentage_row (faction, stats) = inr row)).
Proof.
  intros vp. split.
  - intros Hz. split; [|split].
    + intros counter. unfold Report.percentage. rewrite Hz. reflexivity.
    + exact (percentage_row_zero faction stats Hz).
    + intros items Hin.
      destruct (mapM'_fails Report.percentage_row items (faction, stats) Hin)
        as [e He].
      { exists ZeroDivisionError. exact (percentage_row_zero faction stats Hz). }
      exists e. split.
      { apply mapM'_inl in He as (entry & _ & Hentry).
        exact (percentage_row_error entry e Hentry). }
      split; [exact He|].
      unfold Report.breakdown. unfold Report.percentage_rows in *. rewrite He.
      reflexivity.
  - intros Hnz. unfold Report.percentage_row. fold vp. split; [|split].
    + destruct (mapM' _ (Report.categories stats)) as [e|cells] eqn:Hcells;
        simpl; [|discriminate].
      apply mapM'_inl in Hcells as (c & _ & Hc). intros [= ->].
      exact (proj1 (percentage_nonzero c vp Hnz) Hc).
    + intros row.
      destruct (mapM' _ (Report.categories stats)) as [e|cells] eqn:Hcells;
        simpl; [discriminate|].
      intros [= <-]. f_equal. exact (percentage_cells vp _ _ Hnz Hcells).
    + intros Hfin.
      destruct (mapM'_total (fun counter => Report.percentage counter vp)
                  (Report.categories stats)) as [cells ->]; [|simpl; eauto].
      intros c Hc. specialize (Hfin c Hc). unfold Report.percentage.
      rewrite truediv_nonzero in * by exact Hnz.
      destruct (SFdiv _ _ _ _); simpl; eauto. congruence.
Qed.

Lemma percentage_view_by_total_witness :
  let zero := FactionStats.mk "terrans" (VPStats.mk 0 0 0 0 0 0 0 0 0 0 0)
                ResourceStats.__init__ in
  let feds := FactionStats.mk "terrans" (VPStats.mk 14 0 0 0 0 0 0 4 0 0 0)
                ResourceStats.__init__ in
  Report.percentage_row ("terrans"%string, zero) = inl ZeroDivisionError /\
  exists row,
    Report.percentage_row ("terrans"%string, feds) = inr row /\
    row.2 !! 5%nat = Some (S754_finite false 8042142191733028 (-48)).
Proof.
  intros zero feds. split.
  - exact (proj1 (proj2 (proj1 (percentage_view_by_total "terrans" zero) eq_refl))).
  - assert (Hnz : VPStats.vp (FactionStats.vp_stats feds) <> 0) by discriminate.
    destruct (proj2 (percentage_view_by_total "terrans" feds) Hnz)
      as (_ & Hrow & Htotal).
    destruct Htotal as [row Hr].
    + intros counter Hin. simpl in Hin.
      repeat (destruct Hin as [<-|Hin]; [vm_compute; discriminate|]). contradiction.
    + exists row. split; [exact Hr|]. rewrite (Hrow row Hr). vm_compute. reflexivity.
Defined.

Example zero_total_reached :
  main [row3 "terrans pays" ["pay"] ["-10vp"]]%string = inl ZeroDivisionError.
Proof. vm_compute. reflexivity. Qed.

(** ** Logs built by the parser *)

Lemma first_in_In names text f : LogItem.first_in names text = Some f -> In f names.
Proof.
  induction names as [|n names IH]; simpl; [discriminate|].
  destruct (Py.contains n text); [intros [= <-]; left; reflexivity | right; auto].
Qed.

Lemma faction_name_strip f : In f _FACTIONS -> Py.strip f = f /\ f <> EmptyString.
Proof.
  unfold _FACTIONS. simpl. intros H.
  repeat (destruct H as [<-|H]; [split; [reflexivity | discriminate]|]).
  contradiction.
Qed.

Lemma parsed_faction row item f :
  LogItem.parse_from_HTML row = inr item -> LogItem.faction item = Some f ->
  In f _FACTIONS.
Proof.
  destruct row as [|col0 rest]; [discriminate|]. rewrite parse_row_cons.
  destruct (strip_attr (string_ col0)) as [e|text]; simpl; [discriminate|].
  assert (Hf : forall ev, LogItem.faction (LogItem.mk text (LogItem._get_faction text) ev)
                          = Some f -> In f _FACTIONS)
    by (intros ev; simpl; apply first_in_In).
  destruct rest as [|col1 [|col2 [|col3 rest]]];
    try (intros [= <-]; apply Hf).
  destruct (LogItem._compute_events col1 col2); simpl; [discriminate|].
  intros [= <-]. apply Hf.
Qed.

Lemma add_faction_names items : forall (acc : gset string) g,
  (forall item f, In item items -> LogItem.faction item = Some f -> In f _FACTIONS) ->
  g ∈ fold_left GameLog.add_faction items acc -> g ∈ acc \/ In g _FACTIONS.
Proof.
  induction items as [|item items IH]; intros acc g Hnames; simpl; [auto|].
  intros Hg. apply IH in Hg; [|intros it f Hin; apply Hnames; right; exact Hin].
  destruct Hg as [Hg|Hg]; [|right; exact Hg].
  unfold GameLog.add_faction in Hg.
  destruct (LogItem.faction item) as [[|c f]|] eqn:Hf; auto.
  destruct (faction_name_strip _ (Hnames item _ (or_introl eq_refl) Hf)) as [Hs _].
  rewrite Hs in Hg.
  destruct (decide (String c f ∈ acc)); [auto|].
  apply elem_of_union in Hg as [Hg|Hg]; [|auto].
  apply elem_of_singleton in Hg. subst g. right.
  exact (Hnames item _ (or_introl eq_refl) Hf).
Qed.

Lemma parsed_participants log_rows log g :
  GameLog.parse_from_HTML log_rows = inr log -> g ∈ GameLog.factions log ->
  In g _FACTIONS.
Proof.
  unfold GameLog.parse_from_HTML.
  destruct (mapM' LogItem.parse_from_HTML (rev log_rows)) as [e|items] eqn:Hitems;
    simpl; [discriminate|].
  intros [= <-]. simpl. intros Hg.
  apply add_faction_names in Hg as [Hg|Hg]; [set_solver | exact Hg |].
  intros item f Hin Hf. apply mapM'_inr in Hitems.
  clear - Hitems Hin Hf.
  induction Hitems as [|row it rows its Hrow _ IH]; [contradiction|].
  destruct Hin as [->|Hin]; [exact (parsed_faction _ _ _ Hrow Hf) | auto].
Qed.

(** On a log built from rows the names the parser collects are never
    empty, so the total holds for every participant of the log. *)
Corollary parser_built_log_totals log_rows log st faction :
  GameLog.parse_from_HTML log_rows = inr log ->
  Stats.__init__ log = inr st ->
  faction ∈ GameLog.factions log ->
  total_vp (Stats.faction_stats st) faction =
    Some (10 + vp_sum GAIN (participant_events faction log)
             - vp_sum LOSS (participant_events faction log)).
Proof.
  intros Hlog Hst Hin. apply (vp_total_after_pass log st faction Hst Hin).
  exact (proj2 (faction_name_strip _ (parsed_participants _ _ _ Hlog Hin))).
Qed.

(** * Further properties of the code *)

(** ** Faction detection *)

Lemma app_empty_inv s t : s +:+ t = EmptyString -> s = EmptyString /\ t = EmptyString.
Proof. destruct s; [intros H; split; [reflexivity | exact H] | discriminate]. Qed.

Lemma contains_spec sub s : Py.contains sub s = true <-> occurs sub s.
Proof.
  unfold occurs. induction s as [|c s IH].
  - simpl. rewrite orb_false_r, startswith_spec. split.
    + intros [q Hq]. exists EmptyString, q. exact Hq.
    + intros (pre & post & H). symmetry in H.
      apply app_empty_inv in H as [-> H]. exists post. symmetry. exact H.
  - simpl. rewrite orb_true_iff, startswith_spec, IH. split.
    + intros [[q Hq]|(pre & post & ->)].
      * exists EmptyString, q. exact Hq.
      * exists (String c pre), post. reflexivity.
    + intros ([|a pre] & post & H).
      * left. exists post. exact H.
      * right. rewrite app_cons in H. injection H as -> ->. eauto.
Qed.

Lemma first_in_some names text name :
  LogItem.first_in names text = Some name <-> first_occurring names text name.
Proof.
  unfold first_occurring. induction names as [|n names IH]; simpl.
  - split; [discriminate | intros (i & H & _); destruct i; discriminate].
  - destruct (Py.contains n text) eqn:Hc.
    + apply contains_spec in Hc. split.
      * intros [= <-]. exists 0%nat. repeat split; [exact Hc | intros; lia].
      * intros (i & Hi & Ho & Hfirst). destruct i as [|i].
        -- simpl in Hi. congruence.
        -- exfalso. exact (Hfirst 0%nat n ltac:(lia) eq_refl Hc).
    + assert (Hn : ~ occurs n text) by (rewrite <- contains_spec, Hc; discriminate).
      rewrite IH. split.
      * intros (i & Hi & Ho & Hfirst). exists (S i).
        repeat split; [exact Hi | exact Ho |].
        intros [|j] other Hlt Hj; simpl in Hj.
        -- injection Hj as <-. exact Hn.
        -- apply (Hfirst j other); [lia | exact Hj].
      * intros (i & Hi & Ho & Hfirst). destruct i as [|i]; simpl in Hi.
        -- injection Hi as <-. contradiction.
        -- exists i. repeat split; [exact Hi | exact Ho |].
           intros j other Hlt Hj. apply (Hfirst (S j) other); [lia | exact Hj].
Qed.

Lemma first_in_none names text :
  LogItem.first_in names text = None <->
  forall name, In name names -> ~ occurs name text.
Proof.
  induction names as [|n names IH]; simpl.
  - split; [intros _ name [] | reflexivity].
  - destruct (Py.contains n text) eqn:Hc.
    + apply contains_spec in Hc. split; [discriminate|].
      intros H. exfalso. exact (H n (or_introl eq_refl) Hc).
    + assert (Hn : ~ occurs n text) by (rewrite <- contains_spec, Hc; discriminate).
      rewrite IH. split.
      * intros H name [<-|Hin]; [exact Hn | exact (H name Hin)].
      * intros H name Hin. exact (H name (or_intror Hin)).
Qed.

(** X1: [_get_faction] returns the first name of [_FACTIONS], in the order
    of the list, that occurs in the text as a substring, and [None] exactly
    when no name of the list occurs in it. *)
Theorem get_faction_first_occurrence (text : string) :
  (forall name, LogItem._get_faction text = Some name <->
                first_occurring _FACTIONS text name) /\
  (LogItem._get_faction text = None <->
   forall name, In name _FACTIONS -> ~ occurs name text).
Proof.
  split.
  - intros name. apply first_in_some.
  - apply first_in_none.
Qed.

Example faction_tie_break :
  LogItem._get_faction "terrans charge power from ivits" = Some "ivits"%string.
Proof. reflexivity. Qed.

(** ** The vocabulary of suffixes *)

Lemma vocabulary_suffix_unique token k1 r1 k2 r2 :
  In (k1, r1) StateChange._RESOURCE_MAP -> In (k2, r2) StateChange._RESOURCE_MAP ->
  is_suffix k1 token -> is_suffix k2 token -> k1 = k2 /\ r1 = r2.
Proof.
  unfold StateChange._RESOURCE_MAP. simpl. intros H1 H2 [p1 E1] [p2 E2].
  assert (E : Py.rev k1 +:+ Py.rev p1 = Py.rev k2 +:+ Py.rev p2)
    by (rewrite <- !rev_app; congruence).
  repeat (destruct H1 as [[= <- <-]|H1]); try contradiction;
    repeat (destruct H2 as [[= <- <-]|H2]); try contradiction;
    first [split; reflexivity | exfalso; vm_compute in E; discriminate E].
Qed.

Lemma resource_loop_any items token r :
  (forall k1 r1 k2 r2, In (k1, r1) items -> In (k2, r2) items ->
     is_suffix k1 token -> is_suffix k2 token -> r1 = r2) ->
  StateChange.resource_loop token items = Some r <->
  exists k, In (k, r) items /\ is_suffix k token.
Proof.
  intros Huniq. induction items as [|[k0 r0] items IH]; simpl.
  - split; [discriminate | intros (k & [] & _)].
  - destruct (Py.endswith token k0) eqn:He.
    + apply endswith_spec in He. split.
      * intros [= <-]. exists k0. split; [left; reflexivity | exact He].
      * intros (k & Hin & Hk). f_equal.
        exact (Huniq k0 r0 k r (or_introl eq_refl) Hin He Hk).
    + assert (Hn : ~ is_suffix k0 token)
        by (rewrite <- endswith_spec, He; discriminate).
      rewrite IH.
      * split.
        -- intros (k & Hin & Hk). exists k. split; [right; exact Hin | exact Hk].
        -- intros (k & [[= <- <-]|Hin] & Hk); [contradiction | eauto].
      * intros k1 r1 k2 r2 H1 H2. apply Huniq; right; assumption.
Qed.

(** X2: no token ends with two different keys of [_RESOURCE_MAP], so the
    resource the constructor's loop finds does not depend on the order in
    which the dictionary is iterated: it is the kind of the one key that is
    a suffix of the token, whatever permutation of the entries the loop
    runs over. *)
Theorem resource_independent_of_iteration_order (token : string)
    (items : list (string * Res)) :
  Permutation items StateChange._RESOURCE_MAP ->
  StateChange.resource_loop token items =
    StateChange.resource_loop token StateChange._RESOURCE_MAP /\
  forall r, StateChange.resource_loop token items = Some r <->
            exists k, In (k, r) StateChange._RESOURCE_MAP /\ is_suffix k token.
Proof.
  intros Hperm.
  assert (Hin : forall e, In e items <-> In e StateChange._RESOURCE_MAP).
  { intros e. split; apply Permutation_in; [exact Hperm | symmetry; exact Hperm]. }
  assert (Hchar : forall r, StateChange.resource_loop token items = Some r <->
            exists k, In (k, r) StateChange._RESOURCE_MAP /\ is_suffix k token).
  { intros r. rewrite resource_loop_any.
    - split; intros (k & Hk & Hs); exists k; (split; [apply Hin; exact Hk | exact Hs]).
    - intros k1 r1 k2 r2 H1 H2 S1 S2. apply Hin in H1, H2.
      exact (proj2 (vocabulary_suffix_unique token k1 r1 k2 r2 H1 H2 S1 S2)). }
  split; [|exact Hchar].
  apply option_eq. intros r. rewrite Hchar. symmetry. apply resource_loop_any.
  intros k1 r1 k2 r2 H1 H2 S1 S2.
  exact (proj2 (vocabulary_suffix_unique token k1 r1 k2 r2 H1 H2 S1 S2)).
Qed.

Lemma resource_independent_of_iteration_order_witness :
  StateChange.resource_loop "12vp"
    [("vp", VP); ("t", PT); ("pw", POWER); ("q", QIC); ("k", KNOWLEDGE);
     ("o", ORE); ("c", COIN)]%string
  = StateChange.resource_loop "12vp" StateChange._RESOURCE_MAP.
Proof.
  refine (proj1 (resource_independent_of_iteration_order "12vp" _ _)).
  apply Permutation_rev.
Defined.

(** ** Events of a row *)

Lemma zip_length {A B} (xs : list A) (ys : list B) :
  length (Py.zip xs ys) = Nat.min (length xs) (length ys).
Proof.
  revert ys. induction xs as [|x xs IH]; intros [|y ys]; simpl; auto.
Qed.

Lemma zip_lookup {A B} (xs : list A) (ys : list B) (i : nat) x y :
  Py.zip xs ys !! i = Some (x, y) <-> xs !! i = Some x /\ ys !! i = Some y.
Proof.
  revert ys i. induction xs as [|x0 xs IH]; intros [|y0 ys] [|i]; simpl;
    try (split; [discriminate | intros [? ?]; discriminate]).
  - split; [intros [= -> ->]; auto | intros [[= ->] [= ->]]; reflexivity].
  - apply IH.
Qed.

Lemma split_length c s : length (Py.split c s) = S (count_char c s).
Proof.
  induction s as [|a s IH]; simpl; [reflexivity|].
  destruct (Ascii.eqb a c); simpl; [rewrite IH; reflexivity|].
  destruct (Py.split c s) as [|piece pieces]; simpl in *; [discriminate | exact IH].
Qed.

Lemma parse_change_inr piece delta :
  LogItem.parse_change piece = inr delta ->
  (Py.strip piece = EmptyString /\ delta = None) \/
  (exists c, StateChange.__init__ (Py.strip piece) = inr c /\ delta = Some c).
Proof.
  unfold LogItem.parse_change.
  destruct (Py.strip piece) as [|a s]; [intros [= <-]; left; auto|].
  destruct (StateChange.__init__ (String a s)) as [e|c]; simpl; [discriminate|].
  intros [= <-]. right. eauto.
Qed.

Lemma compute_event_inr pair action changes :
  LogItem.compute_event pair = inr (action, changes) ->
  exists act grp,
    pair = (Some act, Some grp) /\ action = Py.strip act /\
    Forall2 (fun piece delta => LogItem.parse_change piece = inr delta)
            (Py.split " " (Py.remove "," (Py.strip grp))) changes.
Proof.
  destruct pair as [[act|] [grp|]]; unfold LogItem.compute_event; simpl;
    try discriminate.
  destruct (mapM' LogItem.parse_change _) as [e|cl] eqn:Hcl; simpl; [discriminate|].
  intros [= <- <-]. exists act, grp. repeat split. apply mapM'_inr. exact Hcl.
Qed.

(** X3: when [_compute_events] returns, it has paired the action labels and
    the change groups by position and dropped what is left of the longer
    list: there are as many events as the shorter of the two lists has
    entries.  The i-th event carries the i-th label, stripped, and one
    delta for every piece between the spaces of the i-th group (stripped,
    commas removed): one more delta than the group has spaces, the j-th
    being absent when the j-th piece is blank and the parse of that piece
    otherwise. *)
Theorem compute_events_alignment (actions_html state_change_html : Tag)
    (events : list Event) :
  LogItem._compute_events actions_html state_change_html = inr events ->
  length events = Nat.min (length (find_all_div actions_html))
                          (length (find_all_div state_change_html)) /\
  forall (i : nat) action changes,
    events !! i = Some (action, changes) ->
    exists act grp,
      find_all_div actions_html !! i = Some (Some act) /\
      find_all_div state_change_html !! i = Some (Some grp) /\
      action = Py.strip act /\
      length changes = S (count_char " " (Py.remove "," (Py.strip grp))) /\
      forall (j : nat) piece,
        Py.split " " (Py.remove "," (Py.strip grp)) !! j = Some piece ->
        (Py.strip piece = EmptyString /\ changes !! j = Some None) \/
        (exists c, StateChange.__init__ (Py.strip piece) = inr c /\
                   changes !! j = Some (Some c)).
Proof.
  unfold LogItem._compute_events. intros H. apply mapM'_inr in H. split.
  - rewrite <- (Forall2_length _ _ _ H). apply zip_length.
  - intros i action changes Hi.
    destruct (Forall2_lookup_r _ _ _ _ _ H Hi) as (pair & Hpair & Hev).
    apply compute_event_inr in Hev as (act & grp & -> & -> & Hch).
    apply zip_lookup in Hpair as [Ha Hg].
    exists act, grp. repeat split; [exact Ha | exact Hg | |].
    + rewrite <- (Forall2_length _ _ _ Hch). apply split_length.
    + intros j piece Hj.
      destruct (Forall2_lookup_l _ _ _ _ _ Hch Hj) as (delta & Hd & Hp).
      apply parse_change_inr in Hp as [[Hs ->]|(c & Hc & ->)]; [left | right]; eauto.
Qed.

Lemma compute_events_alignment_witness :
  length [("charge"%string, [Some (StateChange.mk GAIN (Some POWER) 2);
                             Some (StateChange.mk GAIN (Some VP) 1)])] =
  Nat.min (length (find_all_div (div_cell ["charge"; "pass"]%string)))
          (length (find_all_div (div_cell ["2pw, 1vp"]%string))).
Proof.
  refine (proj1 (compute_events_alignment (div_cell ["charge"; "pass"]%string)
                   (div_cell ["2pw, 1vp"]%string) _ _)).
  reflexivity.
Defined.

(** ** The error of the log builder *)

Lemma mapM'_first_failure {A B} (f : A -> result B) xs e :
  mapM' f xs = inl e <->
  exists before x after,
    xs = before ++ x :: after /\
    (forall y, In y before -> exists b, f y = inr b) /\ f x = inl e.
Proof.
  induction xs as [|a xs IH]; simpl.
  - split; [discriminate|]. intros (before & x & after & H & _).
    destruct before; discriminate.
  - destruct (f a) as [e'|b] eqn:Ha; simpl.
    + split.
      * intros [= <-]. exists [], a, xs. repeat split; [intros y [] | exact Ha].
      * intros ([|y before] & x & after & Heq & Hok & Hx).
        -- injection Heq as <- <-. congruence.
        -- injection Heq as <- ->. destruct (Hok a (or_introl eq_refl)). congruence.
    + destruct (mapM' f xs) as [e'|ys] eqn:Hxs; simpl.
      * split.
        -- intros [= <-]. destruct (proj1 IH eq_refl) as (before & x & after & -> & Hok & Hx).
           exists (a :: before), x, after. repeat split; [|exact Hx].
           intros y [<-|Hy]; [eauto | exact (Hok y Hy)].
        -- intros ([|y before] & x & after & Heq & Hok & Hx).
           ++ injection Heq as <- <-. congruence.
           ++ injection Heq as <- ->. f_equal.
              assert (He : inl e' = inl e :> result (list B)); [|congruence].
              apply IH. exists before, x, after. repeat split; [|exact Hx].
              intros z Hz. apply Hok. right. exact Hz.
      * split; [discriminate|].
        intros ([|y before] & x & after & Heq & Hok & Hx).
        -- injection Heq as <- <-. congruence.
        -- injection Heq as <- ->.
           assert (He : inr ys = inl e :> result (list B)); [|discriminate].
           apply IH. exists before, x, after. repeat split; [|exact Hx].
           intros z Hz. apply Hok. right. exact Hz.
Qed.

(** X4: the log builder classifies the rows oldest first and stops at the
    first row that fails, so the error of [GameLog.parse_from_HTML] is the
    error of the oldest failing row, the one that comes last in the source
    among the rows that fail. *)
Theorem log_error_is_oldest_failure (log_rows : list Row) (e : exn) :
  GameLog.parse_from_HTML log_rows = inl e <->
  exists newer row older,
    log_rows = newer ++ row :: older /\
    (forall r, In r older -> exists item, LogItem.parse_from_HTML r = inr item) /\
    LogItem.parse_from_HTML row = inl e.
Proof.
  unfold GameLog.parse_from_HTML.
  transitivity (mapM' LogItem.parse_from_HTML (rev log_rows) = inl e).
  { destruct (mapM' LogItem.parse_from_HTML (rev log_rows)); simpl;
      split; congruence. }
  rewrite mapM'_first_failure. split.
  - intros (before & x & after & Hrev & Hok & Hx).
    exists (rev after), x, (rev before). split; [|split; [|exact Hx]].
    + rewrite <- (List.rev_involutive log_rows), Hrev, List.rev_app_distr. simpl.
      rewrite <- List.app_assoc. reflexivity.
    + intros r Hr. apply Hok. apply in_rev. exact Hr.
  - intros (newer & row & older & -> & Hok & Hx).
    exists (rev older), row, (rev newer). split; [|split; [|exact Hx]].
    + rewrite List.rev_app_distr. simpl. rewrite <- List.app_assoc. reflexivity.
    + intros r Hr. apply Hok. apply in_rev. exact Hr.
Qed.

Example oldest_failure_wins :
  GameLog.parse_from_HTML
    [row3 "terrans build" ["build"] ["abc"]; []]%string = inl MalformedRow.
Proof. reflexivity. Qed.

(** ** The participants of a built log *)

Lemma add_faction_elem (acc : gset string) item g :
  g ∈ GameLog.add_faction acc item <->
  g ∈ acc \/ exists f, LogItem.faction item = Some f /\ f <> EmptyString /\
                       g = Py.strip f.
Proof.
  unfold GameLog.add_faction.
  destruct (LogItem.faction item) as [[|c f]|].
  - split; [auto | intros [H|(f & [= <-] & Hne & _)]; [exact H | congruence]].
  - destruct (decide (Py.strip (String c f) ∈ acc)) as [Hin|Hnin].
    + split; [auto|]. intros [H|(f' & [= <-] & _ & ->)]; assumption.
    + rewrite elem_of_union, elem_of_singleton. split.
      * intros [->|H]; [right; exists (String c f); repeat split; discriminate | auto].
      * intros [H|(f' & [= <-] & _ & ->)]; auto.
  - split; [auto | intros [H|(f & [=] & _)]; exact H].
Qed.

Lemma fold_add_faction_elem items : forall (acc : gset string) g,
  g ∈ fold_left GameLog.add_faction items acc <->
  g ∈ acc \/ exists item f, In item items /\ LogItem.faction item = Some f /\
                            f <> EmptyString /\ g = Py.strip f.
Proof.
  induction items as [|item items IH]; intros acc g; simpl.
  - split; [auto | intros [H|(item & f & [] & _)]; exact H].
  - rewrite IH, add_faction_elem. split.
    + intros [[H|(f & Hf & Hne & ->)]|(it & f & Hin & Hf & Hne & ->)];
        [left; exact H | right; exists item, f; auto | right; exists it, f; auto].
    + intros [H|(it & f & [<-|Hin] & Hf & Hne & ->)];
        [left; left; exact H | left; right; exists f; auto | right; exists it, f; auto].
Qed.

Lemma parsed_items_factions log_rows log item f :
  GameLog.parse_from_HTML log_rows = inr log ->
  In item (GameLog.items log) -> LogItem.faction item = Some f ->
  In f _FACTIONS.
Proof.
  unfold GameLog.parse_from_HTML.
  destruct (mapM' LogItem.parse_from_HTML (rev log_rows)) as [e|items] eqn:Hitems;
    simpl; [discriminate|].
  intros [= <-]. simpl. intros Hin Hf. apply mapM'_inr in Hitems.
  induction Hitems as [|row it rows its Hrow _ IH]; [contradiction|].
  destruct Hin as [->|Hin]; [exact (parsed_faction _ _ _ Hrow Hf) | auto].
Qed.

(** X5: the participants of a log built from rows are exactly the factions
    of its entries: a name is in [factions] if and only if some entry of
    the log has it as its faction.  Every one of them is a name of
    [_FACTIONS]. *)
Theorem parsed_factions_are_item_factions (log_rows : list Row) (log : GameLog.t) :
  GameLog.parse_from_HTML log_rows = inr log ->
  forall g,
    (g ∈ GameLog.factions log <->
     exists item, In item (GameLog.items log) /\ LogItem.faction item = Some g) /\
    (g ∈ GameLog.factions log -> In g _FACTIONS).
Proof.
  intros Hlog g.
  assert (Hiff : g ∈ GameLog.factions log <->
     exists item, In item (GameLog.items log) /\ LogItem.faction item = Some g).
  { pose proof (parsed_items_factions log_rows log) as Hnames.
    specialize (Hnames) with (1 := Hlog).
    revert Hlog. unfold GameLog.parse_from_HTML.
    destruct (mapM' LogItem.parse_from_HTML (rev log_rows)) as [e|items]; simpl;
      [discriminate|].
    intros [= <-]. simpl in *. rewrite fold_add_faction_elem. split.
    - intros [H|(item & f & Hin & Hf & Hne & ->)]; [set_solver|].
      exists item. split; [exact Hin|].
      rewrite (proj1 (faction_name_strip f (Hnames item f Hin Hf))). exact Hf.
    - intros (item & Hin & Hf). right. exists item, g.
      destruct (faction_name_strip g (Hnames item g Hin Hf)) as [Hs Hne]. auto. }
  split; [exact Hiff|].
  intros Hg. apply Hiff in Hg as (item & Hin & Hf).
  exact (parsed_items_factions _ _ _ _ Hlog Hin Hf).
Qed.

Lemma parsed_factions_are_item_factions_witness :
  exists item,
    In item [LogItem.mk "ivits pass" (Some "ivits"%string) None] /\
    LogItem.faction item = Some "ivits"%string.
Proof.
  apply (proj1 (parsed_factions_are_item_factions [[text_cell "ivits pass"]]
    (GameLog.mk (fold_left GameLog.add_faction
                   [LogItem.mk "ivits pass" (Some "ivits"%string) None] ∅)
                [LogItem.mk "ivits pass" (Some "ivits"%string) None])
    eq_refl "ivits"%string)).
  vm_compute. reflexivity.
Defined.

(** ** When the accumulator returns *)

Lemma augment_change_inr action self change self' :
  FactionStats.augment_change action self change = inr self' ->
  resolved change /\ FactionStats.faction self' = FactionStats.faction self.
Proof.
  destruct change as [c|]; [|discriminate]. unfold FactionStats.augment_change.
  unfold get_resource at 1.
  destruct (StateChange.resource c) as [r|] eqn:Hr; [|discriminate]. simpl.
  intros H. split; [exists c, r; auto|].
  destruct (bool_decide (r = VP)).
  - destruct (VPStats.update_vp action c _); simpl in H; [discriminate|].
    injection H as <-. reflexivity.
  - destruct (ResourceStats.update_resources action c _); simpl in H; [discriminate|].
    injection H as <-. reflexivity.
Qed.

Lemma augment_change_inl action self change e :
  FactionStats.augment_change action self change = inl e -> e = AttributeError.
Proof.
  destruct change as [c|]; [|intros [= <-]; reflexivity].
  destruct (StateChange.resource c) as [r|] eqn:Hr.
  - destruct (augment_change_total action self c r Hr) as [s' ->]. discriminate.
  - unfold FactionStats.augment_change, get_resource. rewrite Hr.
    intros [= <-]. reflexivity.
Qed.

Lemma augment_inr action changes : forall self self',
  FactionStats.augment (action, changes) self = inr self' ->
  Forall resolved changes /\ FactionStats.faction self' = FactionStats.faction self.
Proof.
  unfold FactionStats.augment. simpl.
  induction changes as [|change changes IH]; intros self self'; simpl.
  - intros [= <-]. split; [constructor | reflexivity].
  - destruct (FactionStats.augment_change action self change) as [e|s1] eqn:H1;
      simpl; [discriminate|].
    intros H. apply IH in H as [Hall Hf]. apply augment_change_inr in H1 as [Hr Hf1].
    split; [constructor; assumption | congruence].
Qed.

Lemma augment_inl action changes : forall self e,
  FactionStats.augment (action, changes) self = inl e -> e = AttributeError.
Proof.
  unfold FactionStats.augment. simpl.
  induction changes as [|change changes IH]; intros self e; simpl; [discriminate|].
  destruct (FactionStats.augment_change action self change) as [e'|s1] eqn:H1; simpl.
  - intros [= <-]. exact (augment_change_inl _ _ _ _ H1).
  - apply IH.
Qed.

(** X6: [FactionStats.augment] returns exactly on the events whose deltas
    are all present with their resource set; on any other event it raises
    AttributeError and nothing else (never the KeyError of the
    resource-to-field lookup, which only VictoryPoint misses and which is
    guarded by the dispatch).  When it returns, the faction name of the
    statistics is unchanged. *)
Theorem augment_returns_iff_resolved (action : string)
    (changes : list (option StateChange.t)) (self : FactionStats.t) :
  ((exists self', FactionStats.augment (action, changes) self = inr self') <->
   Forall resolved changes) /\
  (forall e, FactionStats.augment (action, changes) self = inl e ->
             e = AttributeError) /\
  (forall self', FactionStats.augment (action, changes) self = inr self' ->
                 FactionStats.faction self' = FactionStats.faction self).
Proof.
  split; [|split].
  - split.
    + intros [self' H]. exact (proj1 (augment_inr _ _ _ _ H)).
    + intros Hall. apply augment_total. intros change Hin.
      rewrite Forall_forall in Hall. apply Hall. apply list_elem_of_In. exact Hin.
  - intros e. apply augment_inl.
  - intros self' H. exact (proj2 (augment_inr _ _ _ _ H)).
Qed.

Example update_resources_vp_key_error :
  ResourceStats.update_resources "charge" (StateChange.mk GAIN (Some VP) 1)
    ResourceStats.__init__ = inl KeyError.
Proof. reflexivity. Qed.

(** ** Loops with an invariant *)

Section LoopInvariant.

Context {A S : Type} (body : S -> A -> result S) (Inv : S -> Prop).

Lemma foldM_inr_inv xs :
  (forall s x s', In x xs -> Inv s -> body s x = inr s' -> Inv s') ->
  forall s s', Inv s -> foldM body xs s = inr s' ->
    Inv s' /\ forall x, In x xs -> exists s1 s2, Inv s1 /\ body s1 x = inr s2.
Proof.
  induction xs as [|a xs IH]; intros Hstep s s' Hs; simpl.
  - intros [= <-]. split; [exact Hs | intros x []].
  - destruct (body s a) as [e|s1] eqn:Ha; simpl; [discriminate|].
    intros H.
    assert (H1 : Inv s1) by exact (Hstep s a s1 (or_introl eq_refl) Hs Ha).
    destruct (IH (fun s x s' Hin => Hstep s x s' (or_intror Hin)) s1 s' H1 H)
      as [Hfin Hall].
    split; [exact Hfin|]. intros x [<-|Hin]; [exists s, s1; auto | auto].
Qed.

Lemma foldM_inl_inv xs :
  (forall s x s', In x xs -> Inv s -> body s x = inr s' -> Inv s') ->
  forall s e, Inv s -> foldM body xs s = inl e ->
    exists x s1, In x xs /\ Inv s1 /\ body s1 x = inl e.
Proof.
  induction xs as [|a xs IH]; intros Hstep s e Hs; simpl; [discriminate|].
  destruct (body s a) as [e'|s1] eqn:Ha; simpl.
  - intros [= <-]. exists a, s. split; [left; reflexivity | auto].
  - intros H.
    assert (H1 : Inv s1) by exact (Hstep s a s1 (or_introl eq_refl) Hs Ha).
    destruct (IH (fun s x s' Hin => Hstep s x s' (or_intror Hin)) s1 e H1 H)
      as (x & s2 & Hin & H2 & Hx).
    exists x, s2. split; [right; exact Hin | auto].
Qed.

End LoopInvariant.

Lemma foldM_app {A S} (body : S -> A -> result S) xs ys s :
  foldM body (xs ++ ys) s = let* s' := foldM body xs s in foldM body ys s'.
Proof.
  revert s. induction xs as [|x xs IH]; intros s; simpl; [reflexivity|].
  destruct (body s x); simpl; [reflexivity | apply IH].
Qed.

(** ** The statistics of one participant *)

Lemma augment_faction_step f m event m' :
  Stats.augment_faction f m event = inr m' ->
  exists s s', m !! f = Some s /\ FactionStats.augment event s = inr s' /\
               m' = <[f := s']> m.
Proof.
  unfold Stats.augment_faction. destruct (m !! f) as [s|]; [|discriminate].
  destruct (FactionStats.augment event s) as [e|s'] eqn:Ha; simpl; [discriminate|].
  intros [= <-]. eauto.
Qed.

Lemma augment_faction_fold f events : forall m m',
  foldM (Stats.augment_faction f) events m = inr m' ->
  (forall g, g <> f -> m' !! g = m !! g) /\
  (forall s, m !! f = Some s ->
     exists s', m' !! f = Some s' /\ augment_all events s = inr s').
Proof.
  induction events as [|event events IH]; intros m m'; simpl.
  - intros [= <-]. split; [reflexivity | eauto].
  - destruct (Stats.augment_faction f m event) as [e|m1] eqn:H1; simpl; [discriminate|].
    intros H. apply IH in H as [Hother Hself].
    apply augment_faction_step in H1 as (s & s1 & Hs & Ha & ->). split.
    + intros g Hg. rewrite (Hother g Hg). apply lookup_insert_ne. congruence.
    + intros s0 Hs0. assert (s0 = s) by congruence. subst s0.
      destruct (Hself s1 (lookup_insert_eq _ _ _)) as (s' & Hs' & Hall).
      exists s'. split; [exact Hs'|]. unfold augment_all. simpl. rewrite Ha. exact Hall.
Qed.

Lemma augment_item_stats m item m' :
  Stats.augment_item m item = inr m' ->
  forall g, g <> EmptyString ->
    (m !! g = None -> m' !! g = None) /\
    (forall s, m !! g = Some s ->
       exists s', m' !! g = Some s' /\ augment_all (item_events g item) s = inr s').
Proof.
  unfold Stats.augment_item, item_events.
  destruct (LogItem.faction item) as [[|c f]|];
    [ | destruct (LogItem.events item) as [[|ev evs]|] | ].
  - intros [= <-] g Hg. split; [auto|]. intros s Hs. exists s. split; [exact Hs|].
    destruct (LogItem.events item); [|reflexivity].
    rewrite bool_decide_eq_false_2 by congruence. reflexivity.
  - intros [= <-] g Hg. split; [auto|]. intros s Hs. exists s. split; [exact Hs|].
    destruct (bool_decide _); reflexivity.
  - intros H g Hg.
    assert (Hkey : is_Some (m !! String c f)).
    { simpl in H.
      destruct (Stats.augment_faction (String c f) m ev) as [e|m1] eqn:H1;
        [discriminate|].
      apply augment_faction_step in H1 as (s0 & _ & -> & _). eauto. }
    apply augment_faction_fold in H as [Hother Hself].
    destruct (decide (g = String c f)) as [->|Hne].
    + rewrite bool_decide_eq_true_2 by reflexivity. split.
      * intros Hnone. destruct Hkey. congruence.
      * exact Hself.
    + rewrite bool_decide_eq_false_2 by congruence. rewrite (Hother g Hne).
      split; [auto|]. intros s Hs. exists s. split; [exact Hs | reflexivity].
  - intros [= <-] g Hg. split; [auto|]. intros s Hs. exists s. auto.
  - intros [= <-] g Hg. split; [auto|]. intros s Hs. exists s. auto.
Qed.

Lemma augment_all_app xs ys s :
  augment_all (xs ++ ys) s = let* s' := augment_all xs s in augment_all ys s'.
Proof. apply foldM_app. Qed.

Lemma augment_items_stats items : forall m m',
  foldM Stats.augment_item items m = inr m' ->
  forall g, g <> EmptyString ->
    (m !! g = None -> m' !! g = None) /\
    (forall s, m !! g = Some s ->
       exists s', m' !! g = Some s' /\
                  augment_all (flat_map (item_events g) items) s = inr s').
Proof.
  induction items as [|item items IH]; intros m m'; simpl.
  - intros [= <-] g Hg. split; [auto|]. intros s Hs. exists s. auto.
  - destruct (Stats.augment_item m item) as [e|m1] eqn:H1; simpl; [discriminate|].
    intros H g Hg.
    destruct (augment_item_stats _ _ _ H1 g Hg) as [Hn1 Hs1].
    destruct (IH _ _ H g Hg) as [Hn2 Hs2]. split; [auto|].
    intros s Hs. destruct (Hs1 s Hs) as (s1 & Hm1 & Ha1).
    destruct (Hs2 s1 Hm1) as (s' & Hm' & Ha2).
    exists s'. split; [exact Hm'|]. rewrite augment_all_app, Ha1. exact Ha2.
Qed.

(** X7: the statistics of a participant depend on that participant's
    events alone.  When the pass returns, the record it holds for a
    participant is the one obtained by augmenting a fresh record with that
    participant's events, in the order of the log; the events of the other
    participants, and the entries without a faction or without events, have
    no effect on it. *)
Theorem participant_statistics (log : GameLog.t) (st : Stats.t) (faction : string) :
  Stats.__init__ log = inr st ->
  faction ∈ GameLog.factions log -> faction <> EmptyString ->
  exists s,
    Stats.faction_stats st !! faction = Some s /\
    augment_all (participant_events faction log) (FactionStats.__init__ faction)
      = inr s.
Proof.
  unfold Stats.__init__. intros Hst Hin Hne.
  destruct (foldM Stats.augment_item (GameLog.items log) _) as [e|m] eqn:Hfold;
    simpl in Hst; [discriminate|].
  injection Hst as <-. simpl.
  destruct (augment_items_stats _ _ _ Hfold faction Hne) as [_ Hs].
  exact (Hs _ (initial_stats _ _ Hin)).
Qed.

Lemma participant_statistics_witness :
  let log :=
    GameLog.mk ({["ivits"%string]} ∪ {["terrans"%string]})
      [LogItem.mk "terrans charges" (Some "terrans"%string)
         (Some [("charge"%string, [Some (StateChange.mk GAIN (Some POWER) 2)])]);
       LogItem.mk "ivits build" (Some "ivits"%string)
         (Some [("build"%string, [Some (StateChange.mk LOSS (Some ORE) 1)])])] in
  exists st s,
    Stats.__init__ log = inr st /\
    Stats.faction_stats st !! "terrans"%string = Some s /\
    ResourceStats.power (FactionStats.resource_stats s) = 2.
Proof.
  intros log.
  destruct (pass_completes log) as [st Hst].
  - intros item f events [<-|[<-|[]]] [= <-] _ [= <-];
      (split; [vm_compute; reflexivity|]);
      intros event change [<-|[]] [<-|[]]; eexists _, _; split; reflexivity.
  - destruct (participant_statistics log st "terrans"%string Hst) as (s & Hs & Ha).
    + vm_compute. reflexivity.
    + discriminate.
    + exists st, s. split; [exact Hst|]. split; [exact Hs|].
      vm_compute in Ha. injection Ha as <-. reflexivity.
Defined.

(** ** The keys of the statistics *)

Lemma initial_stats_lookup (factions : gset string) g s :
  (set_to_map (fun faction => (faction, FactionStats.__init__ faction)) factions
     : gmap string FactionStats.t) !! g = Some s ->
  g ∈ factions /\ s = FactionStats.__init__ g.
Proof.
  intros H. apply lookup_set_to_map in H as (y & Hy & [= -> <-]); [auto|].
  intros y y' _ _ Heq. exact Heq.
Qed.

Lemma augment_faction_names f m event m' :
  (forall g s, m !! g = Some s -> FactionStats.faction s = g) ->
  Stats.augment_faction f m event = inr m' ->
  forall g s, m' !! g = Some s -> FactionStats.faction s = g.
Proof.
  intros Hm H. apply augment_faction_step in H as (s0 & s1 & Hs0 & Ha & ->).
  destruct event as [action changes]. apply augment_inr in Ha as [_ Hf].
  intros g s. rewrite lookup_insert. destruct (decide (f = g)) as [->|Hne].
  - intros [= <-]. rewrite Hf. exact (Hm g s0 Hs0).
  - apply Hm.
Qed.

Lemma augment_item_names m item m' :
  (forall g s, m !! g = Some s -> FactionStats.faction s = g) ->
  Stats.augment_item m item = inr m' ->
  forall g s, m' !! g = Some s -> FactionStats.faction s = g.
Proof.
  intros Hm. unfold Stats.augment_item.
  destruct (LogItem.faction item) as [[|c f]|];
    [ | destruct (LogItem.events item) as [events|] | ];
    try (intros [= <-]; exact Hm).
  destruct events as [|ev evs]; [intros [= <-]; exact Hm|].
  intros H.
  exact (proj1 (foldM_inr_inv (Stats.augment_faction (String c f))
                  (fun m => forall g s, m !! g = Some s -> FactionStats.faction s = g)
                  (ev :: evs)
                  (fun m0 x m1 _ H0 H1 => augment_faction_names _ m0 x m1 H0 H1)
                  m m' Hm H)).
Qed.

(** X8: when the pass returns, the statistics hold one record for each
    participant of the log and for nothing else, each record carries the
    name it is stored under, and the log is kept as it was given. *)
Theorem stats_keys_are_participants (log : GameLog.t) (st : Stats.t) :
  Stats.__init__ log = inr st ->
  Stats.log st = log /\
  dom (Stats.faction_stats st) = GameLog.factions log /\
  forall g s, Stats.faction_stats st !! g = Some s -> FactionStats.faction s = g.
Proof.
  unfold Stats.__init__.
  destruct (foldM Stats.augment_item (GameLog.items log) _) as [e|m] eqn:Hfold;
    simpl; [discriminate|].
  intros [= <-]. simpl. split; [reflexivity|].
  set (m0 := set_to_map (fun faction => (faction, FactionStats.__init__ faction))
               (GameLog.factions log) : gmap string FactionStats.t) in *.
  pose (Inv := fun m1 : gmap string FactionStats.t =>
         (forall g, is_Some (m1 !! g) <-> g ∈ GameLog.factions log) /\
         (forall g s, m1 !! g = Some s -> FactionStats.faction s = g)).
  assert (H0 : Inv m0).
  { split.
    - intros g. split.
      + intros [s Hs]. exact (proj1 (initial_stats_lookup _ _ _ Hs)).
      + intros Hg. subst m0. rewrite (initial_stats _ _ Hg). eauto.
    - intros g s Hs. apply initial_stats_lookup in Hs as [_ ->]. reflexivity. }
  assert (Hfin : Inv m).
  { refine (proj1 (foldM_inr_inv Stats.augment_item Inv (GameLog.items log) _
                     m0 m H0 Hfold)).
    intros m1 item m2 _ [Hd Hn] Hstep. split.
    - intros g. rewrite (augment_item_dom _ _ _ Hstep g). apply Hd.
    - exact (augment_item_names _ _ _ Hn Hstep). }
  destruct Hfin as [Hd Hn]. split; [|exact Hn].
  apply set_eq. intros g. rewrite elem_of_dom. apply Hd.
Qed.

Lemma stats_keys_are_participants_witness :
  let log := GameLog.mk {["terrans"%string]} [] in
  dom (set_to_map (fun faction => (faction, FactionStats.__init__ faction))
         (GameLog.factions log) : gmap string FactionStats.t)
  = GameLog.factions log.
Proof.
  intros log.
  exact (proj1 (proj2 (stats_keys_are_participants log
    (Stats.mk log (set_to_map (fun faction => (faction, FactionStats.__init__ faction))
                     (GameLog.factions log))) eq_refl))).
Defined.

(** ** The pass over a built log *)

Lemma parsed_item_participant log_rows log item f :
  GameLog.parse_from_HTML log_rows = inr log ->
  In item (GameLog.items log) -> LogItem.faction item = Some f ->
  f ∈ GameLog.factions log /\ f <> EmptyString.
Proof.
  intros Hlog Hin Hf.
  destruct (faction_name_strip f (parsed_items_factions _ _ _ _ Hlog Hin Hf))
    as [Hs Hne].
  split; [|exact Hne]. revert Hlog Hin. unfold GameLog.parse_from_HTML.
  destruct (mapM' LogItem.parse_from_HTML (rev log_rows)) as [e|items]; simpl;
    [discriminate|].
  intros [= <-]. simpl. intros Hin. apply fold_add_faction_elem. right.
  exists item, f. auto.
Qed.

Lemma augment_faction_inl f m event e :
  is_Some (m !! f) -> Stats.augment_faction f m event = inl e -> e = AttributeError.
Proof.
  intros [s Hs]. unfold Stats.augment_faction. rewrite Hs.
  destruct event as [action changes].
  destruct (FactionStats.augment (action, changes) s) as [e'|s'] eqn:Ha; simpl;
    [|discriminate].
  intros [= <-]. exact (augment_inl _ _ _ _ Ha).
Qed.

Lemma augment_faction_keeps_key f m event m' :
  is_Some (m !! f) -> Stats.augment_faction f m event = inr m' -> is_Some (m' !! f).
Proof.
  intros _ H. apply augment_faction_step in H as (s & s' & _ & _ & ->).
  rewrite lookup_insert_eq. eauto.
Qed.

Lemma augment_item_inl (factions : gset string) m item e :
  (forall f, LogItem.faction item = Some f -> f ∈ factions) ->
  (forall g, g ∈ factions -> is_Some (m !! g)) ->
  Stats.augment_item m item = inl e -> e = AttributeError.
Proof.
  intros Hf Hm. unfold Stats.augment_item.
  destruct (LogItem.faction item) as [[|c f]|]; try discriminate.
  destruct (LogItem.events item) as [[|ev evs]|]; try discriminate.
  intros H.
  destruct (foldM_inl_inv (Stats.augment_faction (String c f))
              (fun m => is_Some (m !! String c f)) (ev :: evs)
              (fun m0 x m1 _ H0 H1 => augment_faction_keeps_key _ m0 x m1 H0 H1)
              m e (Hm _ (Hf _ eq_refl)) H) as (x & m1 & _ & Hkey & Hx).
  exact (augment_faction_inl _ _ _ _ Hkey Hx).
Qed.

Lemma augment_item_resolved m item m' f events event change :
  Stats.augment_item m item = inr m' ->
  LogItem.faction item = Some f -> f <> EmptyString ->
  LogItem.events item = Some events ->
  In event events -> In change event.2 -> resolved change.
Proof.
  unfold Stats.augment_item. intros H Hf Hne He Hev Hch. rewrite Hf, He in H.
  destruct f as [|c f]; [congruence|].
  destruct events as [|ev evs]; [contradiction|].
  destruct (proj2 (foldM_inr_inv (Stats.augment_faction (String c f))
                     (fun _ => True) (ev :: evs) (fun _ _ _ _ _ _ => I) m m' I H)
                  event Hev) as (m1 & m2 & _ & Hstep).
  apply augment_faction_step in Hstep as (s & s' & _ & Ha & _).
  destruct event as [action changes]. apply augment_inr in Ha as [Hall _].
  rewrite Forall_forall in Hall. apply Hall. apply list_elem_of_In. exact Hch.
Qed.

Lemma pass_keeps_keys items : forall (m m' : gmap string FactionStats.t),
  foldM Stats.augment_item items m = inr m' ->
  forall g, is_Some (m' !! g) <-> is_Some (m !! g).
Proof.
  induction items as [|item items IH]; intros m m'; simpl.
  - intros [= <-] g. reflexivity.
  - destruct (Stats.augment_item m item) as [e|m1] eqn:H1; simpl; [discriminate|].
    intros H g. rewrite (IH _ _ H g). exact (augment_item_dom _ _ _ H1 g).
Qed.

Lemma built_log_pass_inl log_rows log e :
  GameLog.parse_from_HTML log_rows = inr log ->
  Stats.__init__ log = inl e -> e = AttributeError.
Proof.
  intros Hlog. unfold Stats.__init__.
  destruct (foldM Stats.augment_item (GameLog.items log) _) as [e'|m] eqn:Hfold;
    simpl; [|discriminate].
  intros [= <-].
  destruct (foldM_inl_inv Stats.augment_item
              (fun m : gmap string FactionStats.t =>
                 forall g, g ∈ GameLog.factions log -> is_Some (m !! g))
              (GameLog.items log)) with (3 := Hfold) as (item & m1 & Hin & Hm1 & Hitem).
  - intros m item m' _ Hm H g Hg. apply (augment_item_dom _ _ _ H). exact (Hm g Hg).
  - intros g Hg. rewrite (initial_stats _ _ Hg). eauto.
  - apply (augment_item_inl (GameLog.factions log) m1 item e'); [|exact Hm1|exact Hitem].
    intros f Hf. exact (proj1 (parsed_item_participant _ _ _ _ Hlog Hin Hf)).
Qed.

Lemma built_log_pass_inr log_rows log st item f events event change :
  GameLog.parse_from_HTML log_rows = inr log ->
  Stats.__init__ log = inr st ->
  In item (GameLog.items log) -> LogItem.faction item = Some f ->
  LogItem.events item = Some events ->
  In event events -> In change event.2 -> resolved change.
Proof.
  intros Hlog Hst Hin Hf He Hev Hch. revert Hst. unfold Stats.__init__.
  destruct (foldM Stats.augment_item (GameLog.items log) _) as [e'|m] eqn:Hfold;
    simpl; [discriminate|]. intros _.
  destruct (proj2 (foldM_inr_inv Stats.augment_item (fun _ => True)
                     (GameLog.items log) (fun _ _ _ _ _ _ => I) _ _ I Hfold)
                  item Hin) as (m1 & m2 & _ & Hitem).
  exact (augment_item_resolved _ _ _ _ _ _ _ Hitem Hf
           (proj2 (parsed_item_participant _ _ _ _ Hlog Hin Hf)) He Hev Hch).
Qed.

(** X9: on a log built from rows the aggregation pass never misses a key:
    it fails with AttributeError or not at all, and it returns exactly when
    every delta of every event of an entry with a faction is present with
    its resource set.  Deltas of entries without a faction are never
    read. *)
Theorem pass_over_built_log (log_rows : list Row) (log : GameLog.t) :
  GameLog.parse_from_HTML log_rows = inr log ->
  (forall e, Stats.__init__ log = inl e -> e = AttributeError) /\
  ((exists st, Stats.__init__ log = inr st) <->
   forall item f events event change,
     In item (GameLog.items log) -> LogItem.faction item = Some f ->
     LogItem.events item = Some events ->
     In event events -> In change event.2 -> resolved change).
Proof.
  intros Hlog. split; [|split].
  - intros e. exact (built_log_pass_inl _ _ _ Hlog).
  - intros [st Hst] item f events event change.
    exact (built_log_pass_inr _ _ _ _ _ _ _ _ Hlog Hst).
  - intros Hall. apply pass_completes.
    intros item f events Hin Hf Hne He. split.
    + exact (proj1 (parsed_item_participant _ _ _ _ Hlog Hin Hf)).
    + intros event change Hev Hch.
      exact (Hall item f events event change Hin Hf He Hev Hch).
Qed.

Lemma pass_over_built_log_witness :
  exists st,
    Stats.__init__
      (GameLog.mk (fold_left GameLog.add_faction
                     [LogItem.mk "ivits pass" (Some "ivits"%string) None] ∅)
         [LogItem.mk "ivits pass" (Some "ivits"%string) None]) = inr st.
Proof.
  apply (proj2 (proj2 (pass_over_built_log [[text_cell "ivits pass"]] _ eq_refl))).
  intros item f events event change [<-|[]] _ [=].
Defined.

Example unresolved_without_faction_is_harmless :
  exists st, stats_of [row3 "round 1 begins" ["income"] ["3"]]%string = inr st.
Proof. vm_compute. eauto. Qed.

(** ** Signs of the counters *)

Lemma update_resources_in_range action c r r' :
  0 <= StateChange.quantity c ->
  ResourceStats.update_resources action c r = inr r' ->
  resource_counters_in_range r -> resource_counters_in_range r'.
Proof.
  unfold resource_counters_in_range, gained, ResourceStats.update_resources,
    get_resource.
  intros Hq. destruct r as [l p co o k q t].
  destruct (StateChange.type c); [|intros [= <-]; auto].
  destruct (StateChange.resource c) as [res|];
    destruct (String.eqb "charge" action); try discriminate;
    destruct res; try discriminate; intros [= <-]; simpl; lia.
Qed.

Lemma gain_buckets_set_vp f v : gain_buckets (VPStats.set_vp f v) = gain_buckets v.
Proof. destruct v. reflexivity. Qed.

Lemma leech_set_vp f v :
  VPStats.vp_lost_from_leech (VPStats.set_vp f v) = VPStats.vp_lost_from_leech v.
Proof. destruct v. reflexivity. Qed.

Lemma update_vp_in_range action c v v' :
  0 <= StateChange.quantity c ->
  VPStats.update_vp action c v = inr v' ->
  buckets_in_range v -> buckets_in_range v'.
Proof.
  intros Hq. unfold VPStats.update_vp, get_resource.
  destruct (StateChange.resource c) as [res|]; [|discriminate]. simpl.
  destruct (negb (bool_decide (res = VP))); [intros [= <-]; auto|].
  intros H [Hb Hl].
  assert (Hv : exists f, v' = VPStats.set_vp f
                 (VPStats.classify action (StateChange.quantity c) v)).
  { destruct (StateChange.type c); injection H as <-; eauto. }
  destruct Hv as [f ->]. unfold buckets_in_range.
  rewrite gain_buckets_set_vp, leech_set_vp.
  destruct (classify_buckets action (StateChange.quantity c) v) as [H2 Hleech].
  split; [|lia].
  revert Hb. induction H2 as [|x y xs ys Hxy _ IH]; intros Hb; [constructor|].
  inversion Hb; subst. constructor; [lia | auto].
Qed.

Lemma augment_change_in_range action self change self' :
  (forall c, change = Some c -> 0 <= StateChange.quantity c) ->
  FactionStats.augment_change action self change = inr self' ->
  resource_counters_in_range (FactionStats.resource_stats self) /\
  buckets_in_range (FactionStats.vp_stats self) ->
  resource_counters_in_range (FactionStats.resource_stats self') /\
  buckets_in_range (FactionStats.vp_stats self').
Proof.
  intros Hq. destruct change as [c|]; [|discriminate].
  specialize (Hq c eq_refl). unfold FactionStats.augment_change.
  destruct (get_resource c) as [e|res]; simpl; [discriminate|].
  destruct (bool_decide (res = VP)).
  - destruct (VPStats.update_vp action c _) as [e|v'] eqn:Hv; simpl; [discriminate|].
    intros [= <-] [Hr Hb]. simpl. split; [exact Hr|].
    exact (update_vp_in_range _ _ _ _ Hq Hv Hb).
  - destruct (ResourceStats.update_resources action c _) as [e|r'] eqn:Hr'; simpl;
      [discriminate|].
    intros [= <-] [Hr Hb]. simpl. split; [|exact Hb].
    exact (update_resources_in_range _ _ _ _ Hq Hr' Hr).
Qed.

Lemma augment_in_range action changes : forall self self',
  (forall c, In (Some c) changes -> 0 <= StateChange.quantity c) ->
  FactionStats.augment (action, changes) self = inr self' ->
  resource_counters_in_range (FactionStats.resource_stats self) /\
  buckets_in_range (FactionStats.vp_stats self) ->
  resource_counters_in_range (FactionStats.resource_stats self') /\
  buckets_in_range (FactionStats.vp_stats self').
Proof.
  unfold FactionStats.augment. simpl.
  induction changes as [|change changes IH]; intros self self' Hq; simpl.
  - intros [= <-]. auto.
  - destruct (FactionStats.augment_change action self change) as [e|s1] eqn:H1;
      simpl; [discriminate|].
    intros H Hin. apply (IH s1 self'); [intros c Hc; apply Hq; right; exact Hc | exact H |].
    apply (augment_change_in_range _ _ _ _ (fun c Hc => Hq c (or_introl Hc)) H1 Hin).
Qed.

Lemma augment_all_in_range events : forall self self',
  nonneg_quantities events ->
  augment_all events self = inr self' ->
  resource_counters_in_range (FactionStats.resource_stats self) /\
  buckets_in_range (FactionStats.vp_stats self) ->
  resource_counters_in_range (FactionStats.resource_stats self') /\
  buckets_in_range (FactionStats.vp_stats self').
Proof.
  unfold augment_all.
  induction events as [|[action changes] events IH]; intros self self' Hq; simpl.
  - intros [= <-]. auto.
  - destruct (FactionStats.augment (action, changes) self) as [e|s1] eqn:H1;
      simpl; [discriminate|].
    intros H Hin. apply (IH s1 self'); [|exact H|].
    + intros event c Hev Hc. exact (Hq event c (or_intror Hev) Hc).
    + apply (augment_in_range _ _ _ _ (fun c Hc => Hq (action, changes) c
               (or_introl eq_refl) Hc) H1 Hin).
Qed.

Lemma init_quantity_nonneg token sc :
  StateChange.__init__ token = inr sc -> 0 <= StateChange.quantity sc.
Proof.
  destruct token as [|a s]; [discriminate|]. rewrite init_spec by discriminate.
  destruct (Py.findall_digits (String a s)) as [|run rest] eqn:Hf; [discriminate|].
  intros [= <-]. simpl.
  destruct (first_of_findall _ _ _ Hf) as (_ & _ & _ & _ & Hrun & _).
  exact (int_nonneg _ Hrun).
Qed.

Lemma parsed_quantities_nonneg row item events :
  LogItem.parse_from_HTML row = inr item -> LogItem.events item = Some events ->
  nonneg_quantities events.
Proof.
  destruct row as [|col0 rest]; [discriminate|]. rewrite parse_row_cons.
  destruct (strip_attr (string_ col0)) as [e|text]; simpl; [discriminate|].
  destruct rest as [|col1 [|col2 [|col3 rest]]];
    try (intros [= <-]; discriminate).
  destruct (LogItem._compute_events col1 col2) as [e|evs] eqn:Hevs; simpl;
    [discriminate|].
  intros [= <-] [= <-]. unfold LogItem._compute_events in Hevs.
  apply mapM'_inr in Hevs. intros [action changes] c Hev Hc.
  apply list_elem_of_In in Hev.
  destruct (proj1 (list_elem_of_lookup _ _) Hev) as [i Hi].
  destruct (Forall2_lookup_r _ _ _ _ _ Hevs Hi) as (pair & _ & Hpair).
  apply compute_event_inr in Hpair as (act & grp & _ & _ & Hch).
  simpl in Hc. apply list_elem_of_In in Hc.
  destruct (proj1 (list_elem_of_lookup _ _) Hc) as [j Hj].
  destruct (Forall2_lookup_r _ _ _ _ _ Hch Hj) as (piece & _ & Hp).
  apply parse_change_inr in Hp as [[_ [=]]|(c' & Hinit & [= <-])].
  exact (init_quantity_nonneg _ _ Hinit).
Qed.

Lemma built_log_quantities_nonneg log_rows log g :
  GameLog.parse_from_HTML log_rows = inr log ->
  nonneg_quantities (participant_events g log).
Proof.
  unfold GameLog.parse_from_HTML, participant_events.
  destruct (mapM' LogItem.parse_from_HTML (rev log_rows)) as [e|items] eqn:Hitems;
    simpl; [discriminate|].
  intros [= <-]. simpl. apply mapM'_inr in Hitems.
  intros event c Hev Hc. apply in_flat_map in Hev as (item & Hin & Hev).
  unfold item_events in Hev.
  destruct (LogItem.faction item) as [f|]; [|contradiction].
  destruct (LogItem.events item) as [events|] eqn:He; [|contradiction].
  destruct (bool_decide (f = g)); [|contradiction].
  apply list_elem_of_In in Hin.
  destruct (proj1 (list_elem_of_lookup _ _) Hin) as [i Hi].
  destruct (Forall2_lookup_r _ _ _ _ _ Hitems Hi) as (row & _ & Hrow).
  exact (parsed_quantities_nonneg _ _ _ Hrow He event c Hev Hc).
Qed.

Lemma fresh_stats_in_range faction :
  resource_counters_in_range (FactionStats.resource_stats (FactionStats.__init__ faction)) /\
  buckets_in_range (FactionStats.vp_stats (FactionStats.__init__ faction)).
Proof.
  split.
  - unfold resource_counters_in_range, gained. simpl. lia.
  - split; [repeat constructor; simpl; lia | simpl; lia].
Qed.

(** X10: on a log built from rows, when the pass returns, no counter of a
    participant has the wrong sign: the six resource counters and the
    leech-resource counter are not negative, the leech-resource counter does
    not exceed the resources gained, the nine gain buckets are not negative
    and the leech bucket is not positive. *)
Theorem built_log_counters_in_range (log_rows : list Row) (log : GameLog.t)
    (st : Stats.t) :
  GameLog.parse_from_HTML log_rows = inr log ->
  Stats.__init__ log = inr st ->
  forall g s, Stats.faction_stats st !! g = Some s ->
    resource_counters_in_range (FactionStats.resource_stats s) /\
    buckets_in_range (FactionStats.vp_stats s).
Proof.
  intros Hlog Hst g s Hs.
  revert Hst. unfold Stats.__init__.
  destruct (foldM Stats.augment_item (GameLog.items log) _) as [e|m] eqn:Hfold;
    simpl; [discriminate|].
  intros [= <-]. simpl in Hs.
  assert (Hkey : is_Some ((set_to_map (fun faction => (faction, FactionStats.__init__ faction))
                             (GameLog.factions log) : gmap string FactionStats.t) !! g))
    by (apply (pass_keeps_keys _ _ _ Hfold g); eauto).
  destruct Hkey as [s0 Hs0].
  destruct (initial_stats_lookup _ _ _ Hs0) as [Hg ->].
  assert (Hne : g <> EmptyString).
  { apply (faction_name_strip g). exact (parsed_participants _ _ _ Hlog Hg). }
  destruct (proj2 (augment_items_stats _ _ _ Hfold g Hne) _ Hs0) as (s' & Hs' & Hall).
  assert (s' = s) by congruence. subst s'.
  exact (augment_all_in_range _ _ _ (built_log_quantities_nonneg _ _ g Hlog) Hall
           (fresh_stats_in_range g)).
Qed.

Lemma built_log_counters_in_range_witness :
  exists st,
    stats_of [row3 "terrans charge" ["charge"] ["2pw, 1vp"]]%string = inr st /\
    forall g s, Stats.faction_stats st !! g = Some s ->
      resource_counters_in_range (FactionStats.resource_stats s) /\
      buckets_in_range (FactionStats.vp_stats s).
Proof.
  destruct (GameLog.parse_from_HTML [row3 "terrans charge" ["charge"] ["2pw, 1vp"]]%string)
    as [e|log] eqn:Hlog; [vm_compute in Hlog; discriminate|].
  destruct (Stats.__init__ log) as [e|st] eqn:Hst.
  - exfalso. vm_compute in Hlog. injection Hlog as <-. vm_compute in Hst. discriminate.
  - exists st. split.
    + unfold stats_of. rewrite Hlog. exact Hst.
    + exact (built_log_counters_in_range _ log st Hlog Hst).
Defined.

(** ** The buckets against the total *)

Lemma classify_balance action q v :
  bucket_sum (VPStats.classify action q v)
    - VPStats.vp_lost_from_leech (VPStats.classify action q v)
  = bucket_sum v - VPStats.vp_lost_from_leech v
    + (if classified action then q else 0).
Proof.
  unfold VPStats.classify, classified, bucket_sum.
  generalize (Py.contains "round" action) (Py.contains "booster" action)
    (Py.contains "final" action) (Py.contains "tech" action)
    (Py.contains "adv" action) (String.eqb "federation" action)
    (Py.contains "qic" action) (VPStats.in_list action _TECH_TRACKS)
    (String.eqb "spend" action) (String.eqb "charge" action).
  intros b1 b2 b3 b4 b5 b6 b7 b8 b9 b10. destruct v.
  destruct b1; [simpl; lia|]. destruct b2; [simpl; lia|].
  destruct b3; [simpl; lia|]. destruct b4; [simpl; lia|].
  destruct b5; [simpl; lia|]. destruct b6; [simpl; lia|].
  destruct b7; [simpl; lia|]. destruct b8; [simpl; lia|].
  destruct b9; [simpl; lia|]. destruct b10; simpl; lia.
Qed.

Lemma bucket_sum_set_vp f v : bucket_sum (VPStats.set_vp f v) = bucket_sum v.
Proof. unfold bucket_sum. rewrite gain_buckets_set_vp. reflexivity. Qed.

Lemma vp_set_vp f v : VPStats.vp (VPStats.set_vp f v) = f (VPStats.vp v).
Proof. destruct v. reflexivity. Qed.

Lemma augment_change_balance action self c self' :
  (StateChange.resource c = Some VP ->
   StateChange.type c = GAIN /\ classified action = true) ->
  FactionStats.augment_change action self (Some c) = inr self' ->
  let v := FactionStats.vp_stats self in
  let v' := FactionStats.vp_stats self' in
  VPStats.vp v' - bucket_sum v' + VPStats.vp_lost_from_leech v'
  = VPStats.vp v - bucket_sum v + VPStats.vp_lost_from_leech v.
Proof.
  intros Hbooked. unfold FactionStats.augment_change, get_resource at 1.
  destruct (StateChange.resource c) as [res|] eqn:Hres; [|discriminate]. simpl.
  destruct (bool_decide (res = VP)) eqn:Hvp.
  - apply bool_decide_eq_true in Hvp. subst res.
    destruct (Hbooked eq_refl) as [Ht Hc].
    rewrite update_vp_spec by exact Hres. simpl. intros [= <-]. simpl.
    rewrite Ht, bucket_sum_set_vp, leech_set_vp, vp_set_vp, classify_vp.
    pose proof (classify_balance action (StateChange.quantity c)
                  (FactionStats.vp_stats self)) as Hb.
    rewrite Hc in Hb. lia.
  - destruct (ResourceStats.update_resources action c _); simpl; [discriminate|].
    intros [= <-]. reflexivity.
Qed.

Lemma augment_all_balance events : forall self self',
  gains_all_booked events ->
  augment_all events self = inr self' ->
  let v := FactionStats.vp_stats self in
  let v' := FactionStats.vp_stats self' in
  VPStats.vp v' - bucket_sum v' + VPStats.vp_lost_from_leech v'
  = VPStats.vp v - bucket_sum v + VPStats.vp_lost_from_leech v.
Proof.
  unfold augment_all.
  induction events as [|[action changes] events IH]; intros self self' Hb; simpl.
  - intros [= <-]. reflexivity.
  - destruct (FactionStats.augment (action, changes) self) as [e|s1] eqn:H1;
      simpl; [discriminate|].
    intros H.
    rewrite (IH s1 self' (fun ev c Hev => Hb ev c (or_intror Hev)) H).
    clear IH H. revert self s1 H1.
    assert (Hch : forall c, In (Some c) changes -> StateChange.resource c = Some VP ->
                    StateChange.type c = GAIN /\ classified action = true)
      by (intros c Hc; exact (Hb (action, changes) c (or_introl eq_refl) Hc)).
    clear Hb. unfold FactionStats.augment. simpl.
    induction changes as [|change changes IHc]; intros self s1; simpl.
    + intros [= <-]. reflexivity.
    + destruct (FactionStats.augment_change action self change) as [e|s2] eqn:H2;
        simpl; [discriminate|].
      intros H. rewrite (IHc (fun c Hc => Hch c (or_intror Hc)) s2 s1 H).
      destruct change as [c|]; [|discriminate].
      exact (augment_change_balance _ _ _ _ (Hch c (or_introl eq_refl)) H2).
Qed.

(** X11: the breakdown adds up to the total when nothing is lost or left
    unbooked.  If every VictoryPoint delta of a participant is a Gain under
    a label that selects a bucket, then after the pass the participant's
    total is 10 plus the nine gain buckets minus the leech bucket (which
    counts downwards). *)
Theorem buckets_add_up_to_total (log : GameLog.t) (st : Stats.t) (faction : string) :
  Stats.__init__ log = inr st ->
  faction ∈ GameLog.factions log -> faction <> EmptyString ->
  gains_all_booked (participant_events faction log) ->
  exists s,
    Stats.faction_stats st !! faction = Some s /\
    VPStats.vp (FactionStats.vp_stats s) =
      10 + bucket_sum (FactionStats.vp_stats s)
         - VPStats.vp_lost_from_leech (FactionStats.vp_stats s).
Proof.
  unfold Stats.__init__. intros Hst Hin Hne Hb.
  destruct (foldM Stats.augment_item (GameLog.items log) _) as [e|m] eqn:Hfold;
    simpl in Hst; [discriminate|].
  injection Hst as <-. simpl.
  destruct (proj2 (augment_items_stats _ _ _ Hfold faction Hne) _
              (initial_stats _ _ Hin)) as (s & Hs & Hall).
  exists s. split; [exact Hs|].
  pose proof (augment_all_balance _ _ _ Hb Hall) as H. simpl in H.
  unfold bucket_sum in H at 2. simpl in H. lia.
Qed.

Lemma buckets_add_up_to_total_witness :
  let log :=
    GameLog.mk {["terrans"%string]}
      [LogItem.mk "terrans charges" (Some "terrans"%string)
         (Some [("charge"%string, [Some (StateChange.mk GAIN (Some VP) 3)])]);
       LogItem.mk "terrans scores round" (Some "terrans"%string)
         (Some [("round"%string, [Some (StateChange.mk GAIN (Some VP) 2)])])] in
  exists st s,
    Stats.__init__ log = inr st /\
    Stats.faction_stats st !! "terrans"%string = Some s /\
    VPStats.vp (FactionStats.vp_stats s) =
      10 + bucket_sum (FactionStats.vp_stats s)
         - VPStats.vp_lost_from_leech (FactionStats.vp_stats s).
Proof.
  intros log.
  destruct (pass_completes log) as [st Hst].
  - intros item f events [<-|[<-|[]]] [= <-] _ [= <-];
      (split; [vm_compute; reflexivity|]);
      intros event change [<-|[]] [<-|[]]; eexists _, _; split; reflexivity.
  - destruct (buckets_add_up_to_total log st "terrans"%string Hst) as (s & Hs & Hv).
    + vm_compute. reflexivity.
    + discriminate.
    + intros event c Hev Hc _. vm_compute in Hev.
      destruct Hev as [<-|[<-|[]]]; destruct Hc as [[= <-]|[]];
        split; reflexivity.
    + exists st, s. auto.
Defined.

Example unbooked_gain_breaks_the_sum :
  vp_view "terrans" [row3 "terrans build" ["build"] ["2vp"]]%string
  = inr (Some (12, 0, 0, 0)).
Proof. vm_compute. reflexivity. Qed.

(** ** The order of the bucket tests *)

Lemma classify_adv action q v :
  VPStats.vp_from_adv_techs (VPStats.classify action q v) =
  VPStats.vp_from_adv_techs v +
  (if Py.contains "round" action || Py.contains "booster" action
      || Py.contains "final" action || Py.contains "tech" action
   then 0 else if Py.contains "adv" action then q else 0).
Proof.
  unfold VPStats.classify.
  generalize (Py.contains "round" action) (Py.contains "booster" action)
    (Py.contains "final" action) (Py.contains "tech" action)
    (Py.contains "adv" action) (String.eqb "federation" action)
    (Py.contains "qic" action) (VPStats.in_list action _TECH_TRACKS)
    (String.eqb "spend" action) (String.eqb "charge" action).
  intros b1 b2 b3 b4 b5 b6 b7 b8 b9 b10. destruct v.
  destruct b1; [simpl; lia|]. destruct b2; [simpl; lia|].
  destruct b3; [simpl; lia|]. destruct b4; [simpl; lia|].
  destruct b5; [simpl; lia|]. destruct b6; [simpl; lia|].
  destruct b7; [simpl; lia|]. destruct b8; [simpl; lia|].
  destruct b9; [simpl; lia|]. destruct b10; simpl; lia.
Qed.

(** X12: the test for "tech" comes before the test for "adv", so a
    VictoryPoint delta whose label contains "tech" (or "round", "booster"
    or "final") never reaches the advanced-tech bucket, also when the label
    contains "adv"; the bucket receives the quantity exactly when the label
    contains "adv" and none of the four. *)
Theorem adv_bucket_is_shadowed (action : string) (c : StateChange.t)
    (v v' : VPStats.t) :
  StateChange.resource c = Some VP ->
  VPStats.update_vp action c v = inr v' ->
  ((occurs "round" action \/ occurs "booster" action \/ occurs "final" action
    \/ occurs "tech" action) ->
   VPStats.vp_from_adv_techs v' = VPStats.vp_from_adv_techs v) /\
  (occurs "adv" action -> ~ occurs "round" action -> ~ occurs "booster" action ->
   ~ occurs "final" action -> ~ occurs "tech" action ->
   VPStats.vp_from_adv_techs v' = VPStats.vp_from_adv_techs v + StateChange.quantity c).
Proof.
  intros Hr. rewrite update_vp_spec by exact Hr. intros [= <-].
  assert (Hadv : forall f x, VPStats.vp_from_adv_techs (VPStats.set_vp f x)
                             = VPStats.vp_from_adv_techs x)
    by (intros f []; reflexivity).
  rewrite Hadv, classify_adv. split.
  - intros H.
    assert (Hb : Py.contains "round" action || Py.contains "booster" action
                 || Py.contains "final" action || Py.contains "tech" action = true).
    { rewrite !orb_true_iff, !contains_spec. tauto. }
    rewrite Hb. lia.
  - intros Ha H1 H2 H3 H4.
    rewrite <- contains_spec in Ha, H1, H2, H3, H4.
    apply not_true_is_false in H1, H2, H3, H4. rewrite H1, H2, H3, H4, Ha.
    reflexivity.
Qed.

Lemma adv_bucket_is_shadowed_witness :
  exists v',
    VPStats.update_vp "adv tech" (StateChange.mk GAIN (Some VP) 4) VPStats.__init__
      = inr v' /\
    VPStats.vp_from_adv_techs v' = 0 /\ VPStats.vp_from_techs v' = 4.
Proof.
  eexists. split; [reflexivity|]. split; [|reflexivity].
  refine (proj1 (adv_bucket_is_shadowed "adv tech"
                   (StateChange.mk GAIN (Some VP) 4) VPStats.__init__ _
                   eq_refl eq_refl) _).
  right. right. right. exists "adv "%string, EmptyString. reflexivity.
Defined.

(** ** The whole run *)





(** ** The tables of the report *)

Lemma pass_dom log st g :
  Stats.__init__ log = inr st ->
  is_Some (Stats.faction_stats st !! g) <-> g ∈ GameLog.factions log.
Proof.
  unfold Stats.__init__.
  destruct (foldM Stats.augment_item (GameLog.items log) _) as [e|m] eqn:Hfold;
    simpl; [discriminate|].
  intros [= <-]. simpl. rewrite (pass_keeps_keys _ _ _ Hfold g). split.
  - intros [s Hs]. exact (proj1 (initial_stats_lookup _ _ _ Hs)).
  - intros Hg. rewrite (initial_stats _ _ Hg). eauto.
Qed.

Lemma percentage_rows_inr items rows :
  Report.percentage_rows items = inr rows ->
  map fst rows = map fst items /\
  Forall (fun row => length row.2 = 10%nat) rows /\
  forall entry, In entry items ->
    VPStats.vp (FactionStats.vp_stats entry.2) <> 0.
Proof.
  unfold Report.percentage_rows. intros H. apply mapM'_inr in H.
  induction H as [|[faction stats] row items rows Hrow _ IH];
    [repeat split; [constructor | intros ? []]|].
  destruct IH as (IH1 & IH2 & IH3).
  unfold Report.percentage_row in Hrow.
  destruct (mapM' _ (Report.categories stats)) as [e|cells] eqn:Hcells; simpl in Hrow;
    [discriminate|].
  injection Hrow as <-. repeat split.
  - simpl. f_equal. exact IH1.
  - constructor; [|exact IH2]. simpl. apply mapM'_inr in Hcells.
    rewrite <- (Forall2_length _ _ _ Hcells). reflexivity.
  - intros entry [<-|Hin]; [|exact (IH3 entry Hin)]. simpl. intros Hz.
    rewrite Hz in Hcells. discriminate Hcells.
Qed.

(** X14: when the run returns, its three tables list the same participants
    in the same order, one row each: exactly the participants of the log,
    none twice.  A row of the first table has the total and ten counters,
    a row of the percentage table ten cells, a row of the resources table
    seven counters; and no participant has a total of zero. *)
Theorem report_tables (log_rows : list Row) (st : Stats.t) (report : Report.t) :
  main log_rows = inr (st, report) ->
  exists log,
    GameLog.parse_from_HTML log_rows = inr log /\ Stats.__init__ log = inr st /\
    map fst (Report.vp_percentages report) = map fst (Report.vp_table report) /\
    map fst (Report.resources_table report) = map fst (Report.vp_table report) /\
    NoDup (map fst (Report.vp_table report)) /\
    (forall g, In g (map fst (Report.vp_table report)) <-> g ∈ GameLog.factions log) /\
    Forall (fun row => length row.2 = 11%nat) (Report.vp_table report) /\
    Forall (fun row => length row.2 = 10%nat) (Report.vp_percentages report) /\
    Forall (fun row => length row.2 = 7%nat) (Report.resources_table report) /\
    (forall g s, Stats.faction_stats st !! g = Some s ->
                 VPStats.vp (FactionStats.vp_stats s) <> 0).
Proof.
  unfold main. intros H.
  destruct (GameLog.parse_from_HTML log_rows) as [e|log] eqn:Hlog; simpl in H;
    [discriminate|].
  destruct (Stats.__init__ log) as [e|st'] eqn:Hst; simpl in H; [discriminate|].
  destruct (Report.breakdown _) as [e|report'] eqn:Hrep; simpl in H; [discriminate|].
  injection H as <- <-. exists log. split; [reflexivity|]. split; [exact Hst|].
  unfold Report.breakdown in Hrep.
  set (items := map_to_list (Stats.faction_stats st')) in *.
  destruct (Report.percentage_rows items) as [e|rows] eqn:Hrows; simpl in Hrep;
    [discriminate|].
  injection Hrep as <-. simpl.
  destruct (percentage_rows_inr _ _ Hrows) as (Hfst & Hlen & Hnz).
  assert (Habs : map fst (map Report.absolute_row items) = map fst items).
  { rewrite map_map. apply map_ext. intros [f s]. reflexivity. }
  assert (Hres : map fst (map Report.resources_row items) = map fst items).
  { rewrite map_map. apply map_ext. intros [f s]. reflexivity. }
  rewrite Habs, Hres, Hfst. repeat split.
  - subst items. exact (NoDup_fst_map_to_list (Stats.faction_stats st')).
  - intros Hg. apply in_map_iff in Hg as ([f s] & <- & Hin). simpl.
    apply (pass_dom log st' f Hst). subst items.
    apply list_elem_of_In, elem_of_map_to_list in Hin. eauto.
  - intros Hg. apply (pass_dom log st' g Hst) in Hg as [s Hs].
    apply in_map_iff. exists (g, s). split; [reflexivity|]. subst items.
    apply list_elem_of_In, elem_of_map_to_list. exact Hs.
  - apply Forall_forall. intros row Hrow. apply list_elem_of_In, in_map_iff in Hrow
      as ([f s] & <- & _). reflexivity.
  - exact Hlen.
  - apply Forall_forall. intros row Hrow. apply list_elem_of_In, in_map_iff in Hrow
      as ([f s] & <- & _). reflexivity.
  - intros g s Hs. apply (Hnz (g, s)). subst items.
    apply list_elem_of_In, elem_of_map_to_list. exact Hs.
Qed.

Lemma report_tables_witness :
  exists st report,
    main [row3 "terrans builds" ["federation"] ["4vp"]]%string = inr (st, report) /\
    map fst (Report.vp_percentages report) = map fst (Report.vp_table report) /\
    forall g s, Stats.faction_stats st !! g = Some s ->
                VPStats.vp (FactionStats.vp_stats s) <> 0.
Proof.
  destruct (main [row3 "terrans builds" ["federation"] ["4vp"]]%string)
    as [e|[st report]] eqn:H; [vm_compute in H; discriminate|].
  destruct (report_tables _ st report H)
    as (log & _ & _ & Hp & _ & _ & _ & _ & _ & _ & Hnz).
  exists st, report. split; [reflexivity|]. split; [exact Hp | exact Hnz].
Defined.

(** ** The buckets and the direction of a delta *)

Lemma categories_eq s t :
  Report.categories s = Report.categories t <->
  gain_buckets (FactionStats.vp_stats s) = gain_buckets (FactionStats.vp_stats t) /\
  VPStats.vp_lost_from_leech (FactionStats.vp_stats s)
  = VPStats.vp_lost_from_leech (FactionStats.vp_stats t).
Proof.
  unfold Report.categories, gain_buckets.
  destruct (FactionStats.vp_stats s), (FactionStats.vp_stats t). simpl.
  split; [intros [= -> -> -> -> -> -> -> -> -> ->]; auto
         | intros [[= -> -> -> -> -> -> -> -> ->] ->]; reflexivity].
Qed.

Lemma classify_same_categories action q v w :
  gain_buckets v = gain_buckets w ->
  VPStats.vp_lost_from_leech v = VPStats.vp_lost_from_leech w ->
  gain_buckets (VPStats.classify action q v) = gain_buckets (VPStats.classify action q w) /\
  VPStats.vp_lost_from_leech (VPStats.classify action q v)
  = VPStats.vp_lost_from_leech (VPStats.classify action q w).
Proof.
  unfold VPStats.classify, gain_buckets.
  generalize (Py.contains "round" action) (Py.contains "booster" action)
    (Py.contains "final" action) (Py.contains "tech" action)
    (Py.contains "adv" action) (String.eqb "federation" action)
    (Py.contains "qic" action) (VPStats.in_list action _TECH_TRACKS)
    (String.eqb "spend" action) (String.eqb "charge" action).
  intros b1 b2 b3 b4 b5 b6 b7 b8 b9 b10. destruct v, w. simpl.
  intros [= -> -> -> -> -> -> -> -> ->] ->.
  destruct b1; [auto|]. destruct b2; [auto|]. destruct b3; [auto|].
  destruct b4; [auto|]. destruct b5; [auto|]. destruct b6; [auto|].
  destruct b7; [auto|]. destruct b8; [auto|]. destruct b9; [auto|].
  destruct b10; auto.
Qed.

Lemma augment_change_forgets_direction action s t change s1 :
  Report.categories s = Report.categories t ->
  FactionStats.augment_change action s change = inr s1 ->
  exists t1,
    FactionStats.augment_change action t (as_gain change) = inr t1 /\
    Report.categories s1 = Report.categories t1.
Proof.
  intros Hcat. destruct change as [c|]; [|discriminate]. simpl.
  unfold FactionStats.augment_change, get_resource at 1 2. simpl.
  destruct (StateChange.resource c) as [res|] eqn:Hres; [|discriminate]. simpl.
  apply categories_eq in Hcat as [Hb Hl].
  destruct (bool_decide (res = VP)) eqn:Hvp.
  - apply bool_decide_eq_true in Hvp. subst res.
    rewrite !update_vp_spec by (simpl; assumption). simpl.
    intros [= <-]. eexists. split; [reflexivity|].
    apply categories_eq. simpl. rewrite !gain_buckets_set_vp, !leech_set_vp.
    exact (classify_same_categories action _ _ _ Hb Hl).
  - apply bool_decide_eq_false in Hvp.
    destruct (ResourceStats.update_resources action c _) as [e|r1]; simpl;
      [discriminate|].
    intros [= <-].
    destruct (update_resources_gain action
                (StateChange.mk GAIN (StateChange.resource c) (StateChange.quantity c))
                res (FactionStats.resource_stats t) eq_refl Hres Hvp)
      as (r2 & Hr2 & _).
    rewrite Hres in Hr2. rewrite Hr2. simpl. eexists. split; [reflexivity|].
    apply categories_eq. simpl. auto.
Qed.

Lemma augment_forgets_direction action changes : forall s t s1,
  Report.categories s = Report.categories t ->
  FactionStats.augment (action, changes) s = inr s1 ->
  exists t1,
    FactionStats.augment (action, map as_gain changes) t = inr t1 /\
    Report.categories s1 = Report.categories t1.
Proof.
  unfold FactionStats.augment. simpl.
  induction changes as [|change changes IH]; intros s t s1 Hcat; simpl.
  - intros [= <-]. eauto.
  - destruct (FactionStats.augment_change action s change) as [e|s2] eqn:H2; simpl;
      [discriminate|].
    intros H.
    destruct (augment_change_forgets_direction _ _ t _ _ Hcat H2) as (t2 & -> & Hcat2).
    simpl. exact (IH _ _ _ Hcat2 H).
Qed.

(** X15: the bucket counters do not look at the direction of a delta: a
    Loss of victory points is added to its bucket (subtracted for the leech
    bucket) exactly as a Gain of the same quantity is.  Whenever augmenting
    with a sequence of events returns, augmenting with the same events, all
    their deltas turned into gains, returns the same ten category
    counters. *)
Theorem buckets_ignore_direction (events : list Event) (s s1 : FactionStats.t) :
  augment_all events s = inr s1 ->
  exists s2,
    augment_all (forget_direction events) s = inr s2 /\
    Report.categories s2 = Report.categories s1.
Proof.
  intros H.
  assert (Hgen : forall t, Report.categories s = Report.categories t ->
            exists t1, augment_all (forget_direction events) t = inr t1 /\
                       Report.categories s1 = Report.categories t1).
  { revert s H. unfold augment_all.
    induction events as [|[action changes] events IH]; intros s H t Hcat; simpl in *.
    - injection H as <-. eauto.
    - destruct (FactionStats.augment (action, changes) s) as [e|s2] eqn:H2;
        simpl in H; [discriminate|].
      destruct (augment_forgets_direction _ _ _ t _ Hcat H2) as (t2 & -> & Hcat2).
      simpl. exact (IH _ H _ Hcat2). }
  destruct (Hgen s eq_refl) as (s2 & Hs2 & Hcat). eauto.
Qed.

Lemma buckets_ignore_direction_witness :
  exists s2,
    augment_all [("round"%string, [Some (StateChange.mk GAIN (Some VP) 3)])]
      (FactionStats.__init__ "terrans") = inr s2 /\
    VPStats.vp_from_round_scoring (FactionStats.vp_stats s2) = 3.
Proof.
  destruct (buckets_ignore_direction
              [("round"%string, [Some (StateChange.mk LOSS (Some VP) 3)])]
              (FactionStats.__init__ "terrans") _ eq_refl) as (s2 & Hs2 & Hcat).
  exists s2. split; [exact Hs2|].
  apply categories_eq in Hcat as [Hb _]. injection Hb as Hround _. exact Hround.
Defined.

Example loss_is_booked_as_gain :
  vp_view "terrans" [row3 "terrans scores round" ["round"] ["-3vp"]]%string
  = inr (Some (7, 0, 0, 3)).
Proof. vm_compute. reflexivity. Qed.

(** ** The resource totals *)

Lemma augment_change_resources action self change self' :
  FactionStats.augment_change action self change = inr self' ->
  let rs := FactionStats.resource_stats self in
  let rs' := FactionStats.resource_stats self' in
  (forall r, r <> VP -> counter r rs' = counter r rs + gain_quantity r change) /\
  ResourceStats.leech rs' =
    ResourceStats.leech rs +
    (if String.eqb "charge" action
     then gain_quantity POWER change + gain_quantity COIN change
          + gain_quantity ORE change + gain_quantity KNOWLEDGE change
          + gain_quantity QIC change + gain_quantity PT change
     else 0).
Proof.
  destruct change as [c|]; [|discriminate]. unfold FactionStats.augment_change.
  unfold get_resource at 1.
  destruct (StateChange.resource c) as [res|] eqn:Hres; [|discriminate]. cbn -[String.eqb].
  destruct (bool_decide (res = VP)) eqn:Hvp.
  - apply bool_decide_eq_true in Hvp. subst res.
    destruct (VPStats.update_vp action c _); cbn -[String.eqb]; [discriminate|].
    intros [= <-]. cbn -[String.eqb]. rewrite Hres. split.
    + intros r Hr. rewrite bool_decide_eq_false_2 by (intros [_ ?]; congruence). lia.
    + rewrite !bool_decide_eq_false_2 by (intros [_ ?]; congruence).
      destruct (String.eqb "charge" action); lia.
  - apply bool_decide_eq_false in Hvp.
    destruct (StateChange.type c) eqn:Ht.
    + destruct (update_resources_gain action c res (FactionStats.resource_stats self)
                  Ht Hres Hvp) as (s' & -> & Hc & Hl & Ho).
      cbn -[String.eqb]. intros [= <-]. cbn -[String.eqb]. rewrite Hres. split.
      * intros r Hr. destruct (decide (r = res)) as [->|Hne].
        -- rewrite bool_decide_eq_true_2 by auto. exact Hc.
        -- rewrite bool_decide_eq_false_2 by (intros [_ ?]; congruence).
           rewrite (Ho r Hne). lia.
      * rewrite Hl. destruct (String.eqb "charge" action); [|lia].
        destruct res; try congruence;
          repeat (first [ rewrite bool_decide_eq_true_2 by auto
                        | rewrite bool_decide_eq_false_2
                            by (intros [_ ?]; congruence) ]); lia.
    + unfold ResourceStats.update_resources. rewrite Ht. cbn -[String.eqb].
      intros [= <-]. cbn -[String.eqb]. split.
      * intros r Hr. rewrite bool_decide_eq_false_2 by (intros [? _]; congruence). lia.
      * rewrite !bool_decide_eq_false_2 by (intros [? _]; congruence).
        destruct (String.eqb "charge" action); lia.
Qed.

Lemma resource_sum_cons r action changes (events : list Event) :
  resource_sum r ((action, changes) :: events) =
  fold_right Z.add 0 (map (gain_quantity r) changes) + resource_sum r events.
Proof.
  unfold resource_sum. cbn -[String.eqb]. rewrite map_app.
  induction (map (gain_quantity r) changes) as [|x xs IH]; cbn -[String.eqb]; [reflexivity|].
  rewrite IH. lia.
Qed.

Lemma resource_sum_single r action changes :
  resource_sum r [(action, changes)] =
  fold_right Z.add 0 (map (gain_quantity r) changes).
Proof. unfold resource_sum. simpl. rewrite app_nil_r. reflexivity. Qed.

Lemma resource_sum_nil r : resource_sum r [] = 0.
Proof. reflexivity. Qed.

Lemma leech_sum_nil : leech_sum [] = 0.
Proof. reflexivity. Qed.

Lemma leech_sum_cons action changes (events : list Event) :
  leech_sum ((action, changes) :: events) =
  (if String.eqb "charge" action
   then resource_sum POWER [(action, changes)] + resource_sum COIN [(action, changes)]
        + resource_sum ORE [(action, changes)]
        + resource_sum KNOWLEDGE [(action, changes)]
        + resource_sum QIC [(action, changes)] + resource_sum PT [(action, changes)]
   else 0) + leech_sum events.
Proof.
  unfold leech_sum, charge_events. rewrite filter_cons.
  change ((action, changes).1) with action.
  destruct (String.eqb_spec "charge" action) as [<-|Hne].
  - rewrite decide_True by reflexivity.
    rewrite !resource_sum_cons.
    repeat match goal with
           | |- context [resource_sum ?r []] => change (resource_sum r []) with 0
           end.
    lia.
  - rewrite decide_False by congruence. lia.
Qed.

Lemma augment_resources action changes : forall self self',
  FactionStats.augment (action, changes) self = inr self' ->
  let rs := FactionStats.resource_stats self in
  let rs' := FactionStats.resource_stats self' in
  (forall r, r <> VP ->
     counter r rs' = counter r rs + resource_sum r [(action, changes)]) /\
  ResourceStats.leech rs' = ResourceStats.leech rs + leech_sum [(action, changes)].
Proof.
  intros self self' H. cbv zeta.
  rewrite leech_sum_cons. change (leech_sum []) with 0.
  assert (Hs : forall r, resource_sum r [(action, changes)] =
                         fold_right Z.add 0 (map (gain_quantity r) changes))
    by (intros r; apply resource_sum_single).
  rewrite !Hs. setoid_rewrite Hs. clear Hs.
  revert self H. unfold FactionStats.augment.
  change ((action, changes).1) with action. change ((action, changes).2) with changes.
  generalize (String.eqb "charge" action) (augment_change_resources action).
  intros ch Hstep.
  induction changes as [|change changes IH]; intros self.
  - intros [= <-]. split; [intros; simpl; lia | simpl; destruct ch; lia].
  - simpl foldM.
    destruct (FactionStats.augment_change action self change) as [e|s1] eqn:H1;
      [discriminate|].
    intros H. destruct (IH s1 H) as [Hc Hl].
    destruct (Hstep _ _ _ H1) as [Hc1 Hl1]. split.
    + intros r Hr. rewrite (Hc r Hr), (Hc1 r Hr). simpl. lia.
    + rewrite Hl, Hl1. simpl. destruct ch; lia.
Qed.

Lemma augment_all_resources events : forall self self',
  augment_all events self = inr self' ->
  let rs := FactionStats.resource_stats self in
  let rs' := FactionStats.resource_stats self' in
  (forall r, r <> VP -> counter r rs' = counter r rs + resource_sum r events) /\
  ResourceStats.leech rs' = ResourceStats.leech rs + leech_sum events.
Proof.
  unfold augment_all. cbv zeta.
  induction events as [|[action changes] events IH]; intros self self'.
  - intros [= <-]. change (leech_sum []) with 0.
    split; [intros; change (resource_sum r []) with 0|]; lia.
  - simpl foldM.
    destruct (FactionStats.augment (action, changes) self) as [e|s1] eqn:H1;
      [discriminate|].
    intros H. destruct (IH _ _ H) as [Hc Hl].
    destruct (augment_resources _ _ _ _ H1) as [Hc1 Hl1]. split.
    + intros r Hr. rewrite (Hc r Hr), (Hc1 r Hr), !resource_sum_cons.
      change (resource_sum r []) with 0. lia.
    + pose proof (leech_sum_cons action changes events) as E1.
      pose proof (leech_sum_cons action changes []) as E2.
      change (leech_sum []) with 0 in E2. unfold Event in *. lia.
Qed.

(** X16: when the pass returns, each resource counter of a participant is
    the sum of the quantities of the participant's Gain deltas of that
    kind, losses counting for nothing, and the leech-resource counter is
    the sum of the quantities of the Gain deltas of the six kinds in the
    participant's "charge" events. *)
Theorem resource_totals (log : GameLog.t) (st : Stats.t) (faction : string) :
  Stats.__init__ log = inr st ->
  faction ∈ GameLog.factions log -> faction <> EmptyString ->
  exists s,
    Stats.faction_stats st !! faction = Some s /\
    (forall r, r <> VP ->
       counter r (FactionStats.resource_stats s)
       = resource_sum r (participant_events faction log)) /\
    ResourceStats.leech (FactionStats.resource_stats s)
    = leech_sum (participant_events faction log).
Proof.
  unfold Stats.__init__. intros Hst Hin Hne.
  destruct (foldM Stats.augment_item (GameLog.items log) _) as [e|m] eqn:Hfold;
    simpl in Hst; [discriminate|].
  injection Hst as <-. simpl.
  destruct (proj2 (augment_items_stats _ _ _ Hfold faction Hne) _
              (initial_stats _ _ Hin)) as (s & Hs & Hall).
  exists s. split; [exact Hs|].
  destruct (augment_all_resources _ _ _ Hall) as [Hc Hl]. split.
  - intros r Hr. unfold participant_events. rewrite (Hc r Hr).
    assert (H0 : counter r (FactionStats.resource_stats (FactionStats.__init__ faction))
                 = 0) by (destruct r; reflexivity).
    lia.
  - unfold participant_events. rewrite Hl.
    change (ResourceStats.leech (FactionStats.resource_stats
              (FactionStats.__init__ faction))) with 0.
    lia.
Qed.

Lemma resource_totals_witness :
  let log :=
    GameLog.mk {["terrans"%string]}
      [LogItem.mk "terrans charges" (Some "terrans"%string)
         (Some [("charge"%string, [Some (StateChange.mk GAIN (Some POWER) 2);
                                   Some (StateChange.mk LOSS (Some ORE) 1)])]);
       LogItem.mk "terrans income" (Some "terrans"%string)
         (Some [("income"%string, [Some (StateChange.mk GAIN (Some POWER) 3)])])] in
  exists st s,
    Stats.__init__ log = inr st /\
    Stats.faction_stats st !! "terrans"%string = Some s /\
    ResourceStats.power (FactionStats.resource_stats s) = 5 /\
    ResourceStats.ore (FactionStats.resource_stats s) = 0 /\
    ResourceStats.leech (FactionStats.resource_stats s) = 2.
Proof.
  intros log.
  destruct (pass_completes log) as [st Hst].
  - intros item f events [<-|[<-|[]]] [= <-] _ [= <-];
      (split; [vm_compute; reflexivity|]);
      intros event change [<-|[]] Hch; simpl in Hch;
      repeat (destruct Hch as [<-|Hch]; [eexists _, _; split; reflexivity|]);
      contradiction.
  - destruct (resource_totals log st "terrans"%string Hst) as (s & Hs & Hc & Hl).
    + vm_compute. reflexivity.
    + discriminate.
    + exists st, s. split; [exact Hst|]. split; [exact Hs|].
      split; [exact (Hc POWER ltac:(discriminate))|].
      split; [exact (Hc ORE ltac:(discriminate)) | exact Hl].
Defined.

(** ** The category totals *)

Lemma classify_branch action q v :
  (forall k, (k < 9)%nat ->
     nth k (gain_buckets (VPStats.classify action q v)) 0
     = nth k (gain_buckets v) 0 + (if takes_branch k action then q else 0)) /\
  VPStats.vp_lost_from_leech (VPStats.classify action q v)
  = VPStats.vp_lost_from_leech v - (if takes_branch 9 action then q else 0).
Proof.
  unfold VPStats.classify, takes_branch, branch_tests.
  generalize (Py.contains "round" action) (Py.contains "booster" action)
    (Py.contains "final" action) (Py.contains "tech" action)
    (Py.contains "adv" action) (String.eqb "federation" action)
    (Py.contains "qic" action) (VPStats.in_list action _TECH_TRACKS)
    (String.eqb "spend" action) (String.eqb "charge" action).
  intros b1 b2 b3 b4 b5 b6 b7 b8 b9 b10. destruct v.
  destruct b1; [|destruct b2; [|destruct b3; [|destruct b4; [|destruct b5;
    [|destruct b6; [|destruct b7; [|destruct b8; [|destruct b9;
    [|destruct b10]]]]]]]]];
    (split;
     [intros k Hk; do 9 (destruct k as [|k]; [simpl; lia|]); lia | simpl; lia]).
Qed.

Lemma vp_amount_vp c :
  StateChange.resource c = Some VP -> vp_amount (Some c) = StateChange.quantity c.
Proof.
  intros Hres. unfold vp_amount, vp_quantity. destruct (StateChange.type c) eqn:Ht.
  - rewrite bool_decide_eq_true_2 by auto.
    rewrite bool_decide_eq_false_2 by (intros [_ ?]; congruence). lia.
  - rewrite bool_decide_eq_false_2 by (intros [_ ?]; congruence).
    rewrite bool_decide_eq_true_2 by auto. lia.
Qed.

Lemma vp_amount_other c r :
  StateChange.resource c = Some r -> r <> VP -> vp_amount (Some c) = 0.
Proof.
  intros Hres Hr. unfold vp_amount, vp_quantity.
  rewrite !bool_decide_eq_false_2 by (intros [? _]; congruence). lia.
Qed.

Lemma augment_change_branch action self change self' :
  FactionStats.augment_change action self change = inr self' ->
  let v := FactionStats.vp_stats self in
  let v' := FactionStats.vp_stats self' in
  (forall k, (k < 9)%nat ->
     nth k (gain_buckets v') 0
     = nth k (gain_buckets v) 0
       + (if takes_branch k action then vp_amount change else 0)) /\
  VPStats.vp_lost_from_leech v'
  = VPStats.vp_lost_from_leech v
    - (if takes_branch 9 action then vp_amount change else 0).
Proof.
  destruct change as [c|]; [|discriminate]. unfold FactionStats.augment_change.
  unfold get_resource at 1.
  destruct (StateChange.resource c) as [res|] eqn:Hres; [|discriminate].
  cbv zeta. unfold bind at 1. unfold ret at 1.
  destruct (bool_decide (res = VP)) eqn:Hvp.
  - apply bool_decide_eq_true in Hvp. subst res.
    rewrite update_vp_spec by exact Hres. unfold bind, ret. intros [= <-].
    unfold FactionStats.vp_stats.
    rewrite gain_buckets_set_vp, leech_set_vp, (vp_amount_vp c Hres).
    apply classify_branch.
  - apply bool_decide_eq_false in Hvp.
    destruct (ResourceStats.update_resources action c _); unfold bind, ret;
      [discriminate|].
    intros [= <-]. unfold FactionStats.vp_stats.
    rewrite (vp_amount_other c res Hres Hvp). split.
    + intros k _. destruct (takes_branch k action); lia.
    + destruct (takes_branch 9 action); lia.
Qed.

Lemma booked_cons k action changes (events : list Event) :
  booked k ((action, changes) :: events) =
  (if takes_branch k action then fold_right Z.add 0 (map vp_amount changes) else 0)
  + booked k events.
Proof. reflexivity. Qed.

Lemma augment_branch action changes : forall self self',
  FactionStats.augment (action, changes) self = inr self' ->
  let v := FactionStats.vp_stats self in
  let v' := FactionStats.vp_stats self' in
  (forall k, (k < 9)%nat ->
     nth k (gain_buckets v') 0
     = nth k (gain_buckets v) 0
       + (if takes_branch k action
          then fold_right Z.add 0 (map vp_amount changes) else 0)) /\
  VPStats.vp_lost_from_leech v'
  = VPStats.vp_lost_from_leech v
    - (if takes_branch 9 action
       then fold_right Z.add 0 (map vp_amount changes) else 0).
Proof.
  unfold FactionStats.augment.
  change ((action, changes).1) with action. change ((action, changes).2) with changes.
  cbv zeta. pose proof (augment_change_branch action) as Hstep. cbv zeta in Hstep.
  induction changes as [|change changes IH]; intros self self'.
  - intros [= <-].
    split; [intros k _; destruct (takes_branch k action)
           | destruct (takes_branch 9 action)]; simpl; lia.
  - simpl foldM.
    destruct (FactionStats.augment_change action self change) as [e|s1] eqn:H1;
      [discriminate|].
    intros H. destruct (IH _ _ H) as [Hc Hl].
    destruct (Hstep _ _ _ H1) as [Hc1 Hl1]. split.
    + intros k Hk. rewrite (Hc k Hk), (Hc1 k Hk).
      destruct (takes_branch k action); simpl; lia.
    + rewrite Hl, Hl1. destruct (takes_branch 9 action); simpl; lia.
Qed.

Lemma augment_all_branch events : forall self self',
  augment_all events self = inr self' ->
  let v := FactionStats.vp_stats self in
  let v' := FactionStats.vp_stats self' in
  (forall k, (k < 9)%nat ->
     nth k (gain_buckets v') 0 = nth k (gain_buckets v) 0 + booked k events) /\
  VPStats.vp_lost_from_leech v' = VPStats.vp_lost_from_leech v - booked 9 events.
Proof.
  unfold augment_all. cbv zeta.
  induction events as [|[action changes] events IH]; intros self self'.
  - intros [= <-]. change (booked 9 []) with 0.
    split; [intros k _; change (booked k []) with 0|]; lia.
  - simpl foldM.
    destruct (FactionStats.augment (action, changes) self) as [e|s1] eqn:H1;
      [discriminate|].
    intros H. destruct (IH _ _ H) as [Hc Hl].
    destruct (augment_branch _ _ _ _ H1) as [Hc1 Hl1]. split.
    + intros k Hk. rewrite (Hc k Hk), (Hc1 k Hk), booked_cons. lia.
    + rewrite Hl, Hl1, booked_cons. lia.
Qed.

(** X17: what each column of the breakdown counts.  When the pass returns,
    the k-th of a participant's nine gain buckets holds the quantities of
    the participant's VictoryPoint deltas, gains and losses alike, in the
    events whose action label takes the k-th branch of the chain (the k-th
    test holds and no earlier one does); the leech bucket holds minus the
    quantities of those whose label takes the last branch. *)
Theorem category_totals (log : GameLog.t) (st : Stats.t) (faction : string) :
  Stats.__init__ log = inr st ->
  faction ∈ GameLog.factions log -> faction <> EmptyString ->
  exists s,
    Stats.faction_stats st !! faction = Some s /\
    (forall k : nat, (k < 9)%nat ->
       gain_buckets (FactionStats.vp_stats s) !! k
       = Some (booked k (participant_events faction log))) /\
    VPStats.vp_lost_from_leech (FactionStats.vp_stats s)
    = - booked 9 (participant_events faction log).
Proof.
  unfold Stats.__init__. intros Hst Hin Hne.
  destruct (foldM Stats.augment_item (GameLog.items log) _) as [e|m] eqn:Hfold;
    simpl in Hst; [discriminate|].
  injection Hst as <-. simpl.
  destruct (proj2 (augment_items_stats _ _ _ Hfold faction Hne) _
              (initial_stats _ _ Hin)) as (s & Hs & Hall).
  exists s. split; [exact Hs|].
  destruct (augment_all_branch _ _ _ Hall) as [Hc Hl]. split.
  - intros k Hk. unfold participant_events.
    assert (H0 : nth k (gain_buckets (FactionStats.vp_stats
                                        (FactionStats.__init__ faction))) 0 = 0)
      by (do 9 (destruct k as [|k]; [reflexivity|]); lia).
    specialize (Hc k Hk). rewrite H0, Z.add_0_l in Hc. rewrite <- Hc.
    rewrite nth_lookup.
    destruct (lookup_lt_is_Some_2 (gain_buckets (FactionStats.vp_stats s)) k)
      as [x ->]; [destruct (FactionStats.vp_stats s); simpl; lia | reflexivity].
  - unfold participant_events. rewrite Hl.
    change (VPStats.vp_lost_from_leech
              (FactionStats.vp_stats (FactionStats.__init__ faction))) with 0.
    lia.
Qed.

Lemma category_totals_witness :
  let log :=
    GameLog.mk {["terrans"%string]}
      [LogItem.mk "terrans scores" (Some "terrans"%string)
         (Some [("round 1"%string, [Some (StateChange.mk GAIN (Some VP) 2);
                                    Some (StateChange.mk GAIN (Some ORE) 1)])]);
       LogItem.mk "terrans adv tech" (Some "terrans"%string)
         (Some [("adv tech"%string, [Some (StateChange.mk LOSS (Some VP) 3)])]);
       LogItem.mk "terrans charges" (Some "terrans"%string)
         (Some [("charge"%string, [Some (StateChange.mk GAIN (Some VP) 1)])])] in
  exists st s,
    Stats.__init__ log = inr st /\
    Stats.faction_stats st !! "terrans"%string = Some s /\
    VPStats.vp_from_round_scoring (FactionStats.vp_stats s) = 2 /\
    VPStats.vp_from_techs (FactionStats.vp_stats s) = 3 /\
    VPStats.vp_from_adv_techs (FactionStats.vp_stats s) = 0 /\
    VPStats.vp_lost_from_leech (FactionStats.vp_stats s) = -1.
Proof.
  intros log.
  destruct (pass_completes log) as [st Hst].
  - intros item f events [<-|[<-|[<-|[]]]] [= <-] _ [= <-];
      (split; [vm_compute; reflexivity|]);
      intros event change [<-|[]] Hch; simpl in Hch;
      repeat (destruct Hch as [<-|Hch]; [eexists _, _; split; reflexivity|]);
      contradiction.
  - destruct (category_totals log st "terrans"%string Hst) as (s & Hs & Hc & Hl).
    + vm_compute. reflexivity.
    + discriminate.
    + exists st, s. split; [exact Hst|]. split; [exact Hs|].
      pose proof (Hc 0%nat ltac:(lia)) as H0.
      pose proof (Hc 3%nat ltac:(lia)) as H3.
      pose proof (Hc 4%nat ltac:(lia)) as H4.
      destruct (FactionStats.vp_stats s).
      vm_compute in H0, H3, H4, Hl.
      injection H0 as ->. injection H3 as ->. injection H4 as ->. subst.
      repeat split.
Defined.

(** ** The order of the entries *)

Lemma augment_item_returns (m : gmap string FactionStats.t) item :
  (exists m', Stats.augment_item m item = inr m') <-> readable (dom m) item.
Proof.
  split.
  - intros [m' H] f events Hf Hne He Hev. split.
    + unfold Stats.augment_item in H. rewrite Hf, He in H.
      destruct f as [|c f]; [congruence|].
      destruct events as [|ev evs]; [congruence|].
      simpl foldM in H.
      destruct (Stats.augment_faction (String c f) m ev) as [e|m1] eqn:H1;
        [discriminate|].
      apply augment_faction_step in H1 as (s & _ & Hs & _).
      apply elem_of_dom. rewrite Hs. eauto.
    + intros event change. exact (augment_item_resolved _ _ _ _ _ _ _ H Hf Hne He).
  - intros Hr. unfold Stats.augment_item.
    destruct (LogItem.faction item) as [[|c f]|] eqn:Hf;
      try (eexists; reflexivity).
    destruct (LogItem.events item) as [[|ev evs]|] eqn:He;
      try (eexists; reflexivity).
    destruct (Hr _ _ Hf ltac:(discriminate) He ltac:(discriminate)) as [Hk Hres].
    apply augment_faction_total; [exact Hres | apply elem_of_dom; exact Hk].
Qed.

Lemma augment_item_keeps_dom (m : gmap string FactionStats.t) item m' :
  Stats.augment_item m item = inr m' -> dom m' = dom m.
Proof.
  intros H. apply set_eq. intros g. rewrite !elem_of_dom.
  exact (augment_item_dom _ _ _ H g).
Qed.

Lemma pass_returns items : forall m : gmap string FactionStats.t,
  (exists m', foldM Stats.augment_item items m = inr m') <->
  Forall (readable (dom m)) items.
Proof.
  induction items as [|item items IH]; intros m; simpl foldM.
  - split; [constructor | eexists; reflexivity].
  - split.
    + intros [m' H].
      destruct (Stats.augment_item m item) as [e|m1] eqn:Ha; [discriminate|].
      constructor; [apply augment_item_returns; eauto|].
      rewrite <- (augment_item_keeps_dom _ _ _ Ha). apply IH. eauto.
    + intros HF. inversion HF as [|? ? H1 H2]; subst.
      apply augment_item_returns in H1 as [m1 Ha]. rewrite Ha.
      apply IH. rewrite (augment_item_keeps_dom _ _ _ Ha). exact H2.
Qed.

Lemma pass_skips_empty_name items : forall (m m' : gmap string FactionStats.t),
  foldM Stats.augment_item items m = inr m' -> m' !! EmptyString = m !! EmptyString.
Proof.
  induction items as [|item items IH]; intros m m'; simpl foldM.
  - intros [= <-]. reflexivity.
  - destruct (Stats.augment_item m item) as [e|m1] eqn:Ha; [discriminate|].
    intros H. rewrite (IH _ _ H). clear IH H. unfold Stats.augment_item in Ha.
    destruct (LogItem.faction item) as [[|c f]|]; try (injection Ha as <-; reflexivity).
    destruct (LogItem.events item) as [[|ev evs]|]; try (injection Ha as <-; reflexivity).
    apply augment_faction_fold in Ha as [Ho _]. apply Ho. discriminate.
Qed.

Lemma additive_perm (F : list Event -> Z) :
  (forall event events, F (event :: events) = F [event] + F events) ->
  forall xs ys, Permutation xs ys -> F xs = F ys.
Proof.
  intros Hcons xs ys Hp.
  induction Hp as [|x xs ys _ IH|x y xs|xs ys zs _ IH1 _ IH2].
  - reflexivity.
  - rewrite (Hcons x xs), (Hcons x ys), IH. reflexivity.
  - rewrite (Hcons y (x :: xs)), (Hcons x (y :: xs)), (Hcons x xs), (Hcons y xs). lia.
  - congruence.
Qed.

Lemma net_vp_perm xs ys : Permutation xs ys -> net_vp xs = net_vp ys.
Proof.
  apply (additive_perm net_vp). intros event events.
  exact (net_vp_app [event] events).
Qed.

Lemma resource_sum_perm r xs ys : Permutation xs ys -> resource_sum r xs = resource_sum r ys.
Proof.
  apply (additive_perm (resource_sum r)). intros [action changes] events.
  rewrite !resource_sum_cons. change (resource_sum r []) with 0. lia.
Qed.

Lemma leech_sum_perm xs ys : Permutation xs ys -> leech_sum xs = leech_sum ys.
Proof.
  apply (additive_perm leech_sum). intros [action changes] events.
  pose proof (leech_sum_cons action changes events) as E1.
  pose proof (leech_sum_cons action changes []) as E2.
  change (leech_sum []) with 0 in E2. unfold Event in *. lia.
Qed.

Lemma booked_perm k xs ys : Permutation xs ys -> booked k xs = booked k ys.
Proof.
  apply (additive_perm (booked k)). intros [action changes] events.
  rewrite !booked_cons. change (booked k []) with 0. lia.
Qed.

Lemma augment_all_vp events : forall self self',
  augment_all events self = inr self' ->
  VPStats.vp (FactionStats.vp_stats self') =
    VPStats.vp (FactionStats.vp_stats self) + net_vp events.
Proof.
  unfold augment_all.
  induction events as [|[action changes] events IH]; intros self self'.
  - intros [= <-]. change (net_vp []) with 0. lia.
  - simpl foldM.
    destruct (FactionStats.augment (action, changes) self) as [e|s1] eqn:H1;
      [discriminate|].
    intros H. rewrite (IH _ _ H), (augment_vp _ _ _ _ H1), net_vp_cons. lia.
Qed.

Lemma augment_all_faction events : forall self self',
  augment_all events self = inr self' ->
  FactionStats.faction self' = FactionStats.faction self.
Proof.
  unfold augment_all.
  induction events as [|[action changes] events IH]; intros self self'.
  - intros [= <-]. reflexivity.
  - simpl foldM.
    destruct (FactionStats.augment (action, changes) self) as [e|s1] eqn:H1;
      [discriminate|].
    intros H. rewrite (IH _ _ H). exact (proj2 (augment_inr _ _ _ _ H1)).
Qed.

Lemma augment_all_perm_eq (xs ys : list Event) self s t :
  Permutation xs ys ->
  augment_all xs self = inr s -> augment_all ys self = inr t -> s = t.
Proof.
  intros Hp Hs Ht.
  pose proof (augment_all_faction _ _ _ Hs) as Fs.
  pose proof (augment_all_faction _ _ _ Ht) as Ft.
  pose proof (augment_all_vp _ _ _ Hs) as Vs.
  pose proof (augment_all_vp _ _ _ Ht) as Vt.
  destruct (augment_all_branch _ _ _ Hs) as [Bs Ls].
  destruct (augment_all_branch _ _ _ Ht) as [Bt Lt].
  destruct (augment_all_resources _ _ _ Hs) as [Cs Es].
  destruct (augment_all_resources _ _ _ Ht) as [Ct Et].
  rewrite <- (net_vp_perm _ _ Hp) in Vt. rewrite <- (booked_perm 9 _ _ Hp) in Lt.
  rewrite <- (leech_sum_perm _ _ Hp) in Et.
  assert (B : forall k, (k < 9)%nat ->
            nth k (gain_buckets (FactionStats.vp_stats s)) 0
            = nth k (gain_buckets (FactionStats.vp_stats t)) 0)
    by (intros k Hk; rewrite (Bs k Hk), (Bt k Hk), (booked_perm k _ _ Hp);
        reflexivity).
  assert (C : forall r, r <> VP ->
            counter r (FactionStats.resource_stats s)
            = counter r (FactionStats.resource_stats t))
    by (intros r Hr; rewrite (Cs r Hr), (Ct r Hr), (resource_sum_perm r _ _ Hp);
        reflexivity).
  rewrite <- Vt in Vs. rewrite <- Lt in Ls. rewrite <- Et in Es. rewrite <- Ft in Fs.
  clear Bs Bt Cs Ct Vt Lt Et Ft Hs Ht Hp.
  pose proof (B 0%nat ltac:(lia)) as B0. pose proof (B 1%nat ltac:(lia)) as B1.
  pose proof (B 2%nat ltac:(lia)) as B2. pose proof (B 3%nat ltac:(lia)) as B3.
  pose proof (B 4%nat ltac:(lia)) as B4. pose proof (B 5%nat ltac:(lia)) as B5.
  pose proof (B 6%nat ltac:(lia)) as B6. pose proof (B 7%nat ltac:(lia)) as B7.
  pose proof (B 8%nat ltac:(lia)) as B8.
  pose proof (C POWER ltac:(discriminate)) as C1.
  pose proof (C COIN ltac:(discriminate)) as C2.
  pose proof (C ORE ltac:(discriminate)) as C3.
  pose proof (C KNOWLEDGE ltac:(discriminate)) as C4.
  pose proof (C QIC ltac:(discriminate)) as C5.
  pose proof (C PT ltac:(discriminate)) as C6.
  clear B C.
  destruct s as [fs [] []], t as [ft [] []]. simpl in *. congruence.
Qed.

(** X18: the statistics do not depend on the order of the log's entries.
    If the pass returns on a log, it returns on every log that has the same
    participants and the same entries in another order, and it holds the
    same statistics for every participant. *)
Theorem statistics_ignore_entry_order (log log' : GameLog.t) (st : Stats.t) :
  GameLog.factions log' = GameLog.factions log ->
  Permutation (GameLog.items log) (GameLog.items log') ->
  Stats.__init__ log = inr st ->
  exists st',
    Stats.__init__ log' = inr st' /\
    Stats.faction_stats st' = Stats.faction_stats st.
Proof.
  unfold Stats.__init__. intros Hf Hp Hst. rewrite Hf.
  destruct (foldM Stats.augment_item (GameLog.items log) _) as [e|m] eqn:Hm;
    simpl in Hst; [discriminate|].
  injection Hst as <-.
  destruct (proj2 (pass_returns (GameLog.items log') _)
              (Permutation_Forall Hp (proj1 (pass_returns _ _) (ex_intro _ m Hm))))
    as [m' Hm'].
  rewrite Hm'. eexists. split; [reflexivity|]. simpl.
  apply map_eq. intros g. destruct (decide (g = EmptyString)) as [->|Hg].
  - rewrite (pass_skips_empty_name _ _ _ Hm), (pass_skips_empty_name _ _ _ Hm').
    reflexivity.
  - destruct (augment_items_stats _ _ _ Hm g Hg) as [Hn Hs].
    destruct (augment_items_stats _ _ _ Hm' g Hg) as [Hn' Hs'].
    destruct (_ !! g) as [s0|] eqn:H0 in Hn, Hs, Hn', Hs'.
    + destruct (Hs _ eq_refl) as (s & -> & Ha).
      destruct (Hs' _ eq_refl) as (s' & -> & Ha').
      f_equal. symmetry.
      exact (augment_all_perm_eq _ _ _ _ _
               (Permutation_flat_map (item_events g) Hp) Ha Ha').
    + rewrite (Hn eq_refl), (Hn' eq_refl). reflexivity.
Qed.

Lemma statistics_ignore_entry_order_witness :
  let first :=
    LogItem.mk "terrans charges" (Some "terrans"%string)
      (Some [("charge"%string, [Some (StateChange.mk GAIN (Some VP) 3)])]) in
  let second :=
    LogItem.mk "xenos score round" (Some "xenos"%string)
      (Some [("round"%string, [Some (StateChange.mk GAIN (Some VP) 2)])]) in
  let third :=
    LogItem.mk "terrans spend" (Some "terrans"%string)
      (Some [("spend"%string, [Some (StateChange.mk LOSS (Some ORE) 1);
                               Some (StateChange.mk GAIN (Some VP) 1)])]) in
  let log := GameLog.mk {["terrans"%string; "xenos"%string]} [first; second; third] in
  let log' := GameLog.mk {["terrans"%string; "xenos"%string]} [third; second; first] in
  exists st st',
    Stats.__init__ log = inr st /\ Stats.__init__ log' = inr st' /\
    Stats.faction_stats st' = Stats.faction_stats st.
Proof.
  intros first second third log log'.
  destruct (pass_completes log) as [st Hst].
  - intros item f events [<-|[<-|[<-|[]]]] [= <-] _ [= <-];
      (split; [vm_compute; reflexivity|]);
      intros event change [<-|[]] Hch; simpl in Hch;
      repeat (destruct Hch as [<-|Hch]; [eexists _, _; split; reflexivity|]);
      contradiction.
  - destruct (statistics_ignore_entry_order log log' st) as (st' & Hst' & Heq).
    + reflexivity.
    + exact (Permutation_rev [first; second; third]).
    + exact Hst.
    + exists st, st'. auto.
Defined.

(** ** The pass on any log *)

Lemma initial_stats_dom (factions : gset string) :
  dom (set_to_map (fun faction => (faction, FactionStats.__init__ faction)) factions
         : gmap string FactionStats.t) = factions.
Proof.
  apply set_eq. intros g. rewrite elem_of_dom. split.
  - intros [s Hs]. exact (proj1 (initial_stats_lookup _ _ _ Hs)).
  - intros Hg. rewrite (initial_stats _ _ Hg). eauto.
Qed.

Lemma augment_faction_error f (m : gmap string FactionStats.t) event e :
  Stats.augment_faction f m event = inl e ->
  (e = KeyError /\ f ∉ dom m) \/ (e = AttributeError /\ f ∈ dom m).
Proof.
  unfold Stats.augment_faction. destruct (m !! f) as [s|] eqn:Hs.
  - destruct event as [action changes].
    destruct (FactionStats.augment (action, changes) s) as [e'|s'] eqn:Ha;
      simpl; [|discriminate].
    intros [= <-]. right. split; [exact (augment_inl _ _ _ _ Ha)|].
    apply elem_of_dom. rewrite Hs. eauto.
  - intros [= <-]. left. split; [reflexivity|]. apply not_elem_of_dom. exact Hs.
Qed.

Lemma augment_item_error (m : gmap string FactionStats.t) item e :
  Stats.augment_item m item = inl e ->
  exists f, LogItem.faction item = Some f /\ f <> EmptyString /\
    ((e = KeyError /\ f ∉ dom m) \/ (e = AttributeError /\ f ∈ dom m)).
Proof.
  unfold Stats.augment_item.
  destruct (LogItem.faction item) as [[|c f]|]; try discriminate.
  destruct (LogItem.events item) as [[|ev evs]|]; try discriminate.
  intros H. exists (String c f). split; [reflexivity|]. split; [discriminate|].
  destruct (foldM_inl_inv (Stats.augment_faction (String c f))
              (fun m1 : gmap string FactionStats.t => dom m1 = dom m) (ev :: evs))
    with (3 := H) as (x & m1 & _ & Hdom & Hx).
  - intros m0 x m1 _ Hdom Hstep.
    apply augment_faction_step in Hstep as (s & s' & Hs & _ & ->).
    rewrite <- Hdom. apply set_eq. intros g. rewrite !elem_of_dom.
    destruct (decide (g = String c f)) as [->|Hne].
    + rewrite lookup_insert_eq, Hs. split; eauto.
    + rewrite lookup_insert_ne by congruence. reflexivity.
  - reflexivity.
  - rewrite <- Hdom. exact (augment_faction_error _ _ _ _ Hx).
Qed.

(** X19: the pass on any log, also one not built from rows.  It returns
    exactly when every entry with a non-empty faction and a non-empty list
    of events names a participant of the log and has all its deltas
    resolved.  When it fails, the error is KeyError or AttributeError, and
    it comes from an entry with a faction: KeyError when that faction is
    not a participant of the log, AttributeError when it is. *)
Theorem pass_returns_iff_readable (log : GameLog.t) :
  ((exists st, Stats.__init__ log = inr st) <->
   Forall (readable (GameLog.factions log)) (GameLog.items log)) /\
  (forall e, Stats.__init__ log = inl e ->
     exists item f,
       In item (GameLog.items log) /\ LogItem.faction item = Some f /\
       f <> EmptyString /\
       ((e = KeyError /\ f ∉ GameLog.factions log) \/
        (e = AttributeError /\ f ∈ GameLog.factions log))).
Proof.
  unfold Stats.__init__. split.
  - pose proof (pass_returns (GameLog.items log)
                  (set_to_map (fun faction => (faction, FactionStats.__init__ faction))
                              (GameLog.factions log))) as HP.
    rewrite initial_stats_dom in HP. rewrite <- HP. clear HP. cbv zeta. split.
    + intros [st H].
      destruct (foldM Stats.augment_item (GameLog.items log) _) as [e|m];
        [discriminate | eauto].
    + intros [m ->]. eexists. reflexivity.
  - intros e.
    destruct (foldM Stats.augment_item (GameLog.items log) _) as [e'|m] eqn:Hfold;
      simpl; [|discriminate].
    intros [= <-].
    destruct (foldM_inl_inv Stats.augment_item
                (fun m : gmap string FactionStats.t => dom m = GameLog.factions log)
                (GameLog.items log)) with (3 := Hfold)
      as (item & m1 & Hin & Hdom & Hitem).
    + intros m item m' _ Hdom H. rewrite (augment_item_keeps_dom _ _ _ H). exact Hdom.
    + apply initial_stats_dom.
    + destruct (augment_item_error _ _ _ Hitem) as (f & Hf & Hne & He).
      rewrite Hdom in He. exists item, f. auto.
Qed.

Example missing_participant_key_error :
  Stats.__init__
    (GameLog.mk {["terrans"%string]}
       [LogItem.mk "xenos build" (Some "xenos"%string)
          (Some [("build"%string, [Some (StateChange.mk GAIN (Some ORE) 1)])])])
  = inl KeyError.
Proof. vm_compute. reflexivity. Qed.

Example missing_participant_without_events :
  exists st,
    Stats.__init__
      (GameLog.mk {["terrans"%string]}
         [LogItem.mk "xenos pass" (Some "xenos"%string) (Some []);
          LogItem.mk "xenos join" (Some "xenos"%string) None]) = inr st.
Proof. vm_compute. eexists. reflexivity. Qed.
